(** * Supercharge: conversion of a 4K Atari ROM to a Supercharger tape WAV

    A shallow embedding of the Go package [supercharge] (tone synthesis,
    the bit packer, the in-memory WAV writer, [Convert] and [Validate])
    together with the properties of the tape protocol and of the
    container layout that the package documentation promises.

    Conventions of the embedding:
    - a Go [byte] is a [Z] in [0, 256); every byte operation writes its
      wrap-around out with [u8];
    - [uint16], [uint32] and [int] values are [Z]; no operation of the
      package leaves their range on the inputs considered, except where a
      truncation [byte(x)] is written in the source, which is [u8];
    - [float64] is Rocq's primitive binary64 [float], every operation
      rounded on its own (Go on amd64; a compiler that fuses a multiply
      and an add may differ in the last bit);
    - a [bytes.Buffer] is the list of the bytes written so far;
    - an [io.Writer] is a type with a [Write] operation that returns the
      updated sink (explicit state passing);
    - a run-time panic (index out of range) is [None]; what was written
      before it is not kept. *)

From Stdlib Require Import ZArith List String Ascii Lia Bool QArith.
From Stdlib Require Import PrimFloat FloatOps SpecFloat Uint63.
From Stdlib Require Import DecimalString Permutation.
Import ListNotations.

Open Scope Z_scope.

(* ------------------------------------------------------------------ *)
(** ** Machine values *)

(** Truncation of an integer to a Go [byte]. *)
Definition u8 (z : Z) : Z := z mod 256.

(** [float64(n)] for an integer [n] with [|n| < 2^63]. *)
Definition float_of_Z (z : Z) : float :=
  if z <? 0 then PrimFloat.opp (PrimFloat.of_uint63 (Uint63.of_Z (- z)))
  else PrimFloat.of_uint63 (Uint63.of_Z z).

(** [int(f)] for a [float64] [f]: the fraction is discarded.  Go leaves the
    result to the implementation when [f] is not finite or does not fit in
    an [int]; amd64 gives the smallest [int64] there, which is what is
    modelled. *)
Definition int_of_float (f : float) : Z :=
  match Prim2SF f with
  | S754_zero _ => 0
  | S754_finite s m e =>
      let a := if 0 <=? e then Z.pos m * 2 ^ e else Z.pos m / 2 ^ (- e) in
      if a <? 2 ^ 63 then (if s then - a else a) else - 2 ^ 63
  | _ => - 2 ^ 63
  end.

(** [byte(f)] for a [float64] [f]. *)
Definition byte_of_float (f : float) : Z := u8 (int_of_float f).

(** The value of an untyped Go constant, kept exact as a rational, when it
    is used at type [float64]: the nearest binary64 value.  Numerator and
    denominator of the constants of this package are far below [2^53], so
    the single correctly rounded division yields that value. *)
Definition float64_of_Q (q : Q) : float :=
  let r := Qred q in
  PrimFloat.div (float_of_Z (Qnum r)) (float_of_Z (Z.pos (Qden r))).

(** The same constant used at an integer type (it must be integral). *)
Definition int_of_Q (q : Q) : Z := Qnum (Qred q).

(** [2 * math.Pi] at type [float64]. *)
Definition two_pi : float := 0x1.921fb54442d18p+2%float.

(** [[]byte(s)] for an ASCII string [s]. *)
Definition bytes_of_string (s : string) : list Z :=
  map (fun c => Z.of_nat (nat_of_ascii c)) (list_ascii_of_string s).

(** One lower-case hexadecimal digit. *)
Definition hex_digit (d : Z) : string :=
  String.substring (Z.to_nat d) 1 "0123456789abcdef".

(** [fmt.Sprintf("%02x", b)] for a byte [b]. *)
Definition hex02 (b : Z) : string :=
  (hex_digit (b / 16) ++ hex_digit (b mod 16))%string.

(** [fmt.Sprintf("%d", b)] for a byte [b]. *)
Definition dec (b : Z) : string :=
  NilZero.string_of_uint (N.to_uint (Z.to_N b)).

(** The characters [\t] and [\n]. *)
Definition tab : string := String (ascii_of_nat 9) EmptyString.
Definition nl : string := String (ascii_of_nat 10) EmptyString.

(** [l[i]], panicking when [i] is out of range. *)
Definition index (l : list Z) (i : Z) : option Z :=
  if i <? 0 then None else nth_error l (Z.to_nat i).

(** [l[lo:hi]], panicking when the bounds are out of range. *)
Definition slice (l : list Z) (lo hi : Z) : option (list Z) :=
  if (0 <=? lo) && (lo <=? hi) && (hi <=? Z.of_nat (List.length l))
  then Some (firstn (Z.to_nat (hi - lo)) (skipn (Z.to_nat lo) l))
  else None.

(** [for i := 0; i < n; i++ { s = body i s }]. *)
Definition for_upto {S : Type} (n : Z) (body : Z -> S -> S) (s : S) : S :=
  fold_left (fun s i => body (Z.of_nat i) s) (seq 0 (Z.to_nat n)) s.

(** Sequencing of computations that may panic. *)
Definition bind {A B : Type} (x : option A) (k : A -> option B) : option B :=
  match x with
  | Some a => k a
  | None => None
  end.

Notation "x <- e ;; k" := (bind e (fun x => k))
  (at level 61, e at next level, right associativity).

(** [for i := 0; i < n; i++ { s = body i s }] with a body that may panic. *)
Definition for_upto_opt {S : Type} (n : Z) (body : Z -> S -> option S) (s : S)
  : option S :=
  fold_left (fun s i => s' <- s ;; body (Z.of_nat i) s')
            (seq 0 (Z.to_nat n)) (Some s).

(* ------------------------------------------------------------------ *)
(** ** Writers *)

(** The interface [io.Writer].  The byte count and the error that Go's
    [Write] returns are ignored by every caller of this package and are
    not modelled. *)
Class Writer (W : Type) := Write : W -> list Z -> W.

(** [bytes.Buffer]. *)
Definition Buffer := list Z.

#[export] Instance Buffer_Writer : Writer Buffer :=
  fun buf p => (buf ++ p)%list.

(** [bytes.Buffer.WriteByte]. *)
Definition WriteByte (buf : Buffer) (b : Z) : Buffer := (buf ++ [b])%list.

(** [logger.Write([]byte(s))] for a formatted string [s]. *)
Definition log {L : Type} `{Writer L} (logger : L) (s : string) : L :=
  Write logger (bytes_of_string s).

Arguments log {L _} logger s%_string.

(* ------------------------------------------------------------------ *)
(** ** Constants of the package *)

Module Const.
Definition startToneSeconds : Q := 1 # 10.
Definition headerToneSeconds : Q := 5 # 10.
Definition endToneSeconds : Q := 5 # 10.

Definition startToneCycle : Q := 51 # 1.
Definition zeroToneCycle : Q := 6 # 1.
Definition oneToneCycle : Q := 10 # 1.

Definition startToneVolume : Q := 98 # 100.
Definition zeroToneVolume : Q := 98 # 100.
Definition oneToneVolume : Q := 98 # 100.

Definition sampleRate : Q := 44100 # 1.
End Const.
Import Const.

(* ------------------------------------------------------------------ *)
(** ** The WAV writer *)

Record wav : Type := mkWav {
  format : Z;
  channels : Z;
  hz : Z;
  depth : Z;
  data : Buffer
}.

Definition set_data (w : wav) (d : Buffer) : wav :=
  mkWav (format w) (channels w) (hz w) (depth w) d.

(** [wav.Write]: every byte is buffered once per channel. *)
Definition wav_Write (w : wav) (p : list Z) : wav :=
  set_data w
    (fold_left
       (fun d b => for_upto (channels w) (fun _ d => WriteByte d b) d)
       p (data w)).

#[export] Instance wav_Writer : Writer wav := wav_Write.

(** The four bytes [byte(l), byte(l >> 8), byte(l >> 16), byte(l >> 24)]. *)
Definition le32 (l : Z) : list Z :=
  [u8 l; u8 (Z.shiftr l 8); u8 (Z.shiftr l 16); u8 (Z.shiftr l 24)].

(** The two bytes [byte(v), byte(v >> 8)]. *)
Definition le16 (v : Z) : list Z := [u8 v; u8 (Z.shiftr v 8)].

(** [wav.Bytes]: the complete container file. *)
Definition wav_Bytes (wv : wav) : list Z :=
  let w : Buffer := [] in
  (* prepare format sub-chunk *)
  let fmtSubChunk : Buffer := [] in
  let fmtSubChunk := Write fmtSubChunk (le16 (format wv)) in
  let fmtSubChunk := Write fmtSubChunk (le16 (channels wv)) in
  let fmtSubChunk := Write fmtSubChunk (le32 (hz wv)) in
  let fmtSubChunk := Write fmtSubChunk (le32 (hz wv)) in
  let blockAlign := Z.land (channels wv) (depth wv) in
  let fmtSubChunk := Write fmtSubChunk (le16 blockAlign) in
  let fmtSubChunk := Write fmtSubChunk (le16 (depth wv)) in
  (* prepare wave chunk using format and data sub-chunks *)
  let waveChunk : Buffer := [] in
  let waveChunk := Write waveChunk (bytes_of_string "WAVE") in
  let waveChunk := Write waveChunk (bytes_of_string "fmt ") in
  let l := Z.of_nat (List.length fmtSubChunk) in
  let waveChunk := Write waveChunk (le32 l) in
  let waveChunk := Write waveChunk fmtSubChunk in
  let waveChunk := Write waveChunk (bytes_of_string "data") in
  let l := Z.of_nat (List.length (data wv)) in
  let waveChunk := Write waveChunk (le32 l) in
  let waveChunk := Write waveChunk (data wv) in
  (* write RIFF header followed by wave chunk size and data *)
  let w := Write w (bytes_of_string "RIFF") in
  let l := Z.of_nat (List.length waveChunk) in
  let w := Write w (le32 l) in
  let w := Write w waveChunk in
  w.

(* ------------------------------------------------------------------ *)
(** ** Validation *)

Inductive error : Type :=
| UnsupportedSize (len : Z).

(** [Validate]: [None] is Go's [nil] error. *)
Definition Validate (rom : list Z) : option error :=
  if negb (Z.of_nat (List.length rom) =? 4096)
  then Some (UnsupportedSize (Z.of_nat (List.length rom)))
  else None.

(* ------------------------------------------------------------------ *)
(** ** The sine of Go's [math] package

    [math.Sin] belongs to Go's standard library, not to this package; the
    embedding of the package below takes the sine as a parameter, and
    every theorem holds for any function in its place.  To run the
    embedding on concrete inputs, this is the algorithm of [math.Sin]
    (Cephes' [sin]: reduction by multiples of pi/4 in three parts and a
    polynomial per octant) for arguments below the threshold [2^29] of its
    reduction of huge arguments, which is not modelled. *)

Definition sin_coefficients : list float :=
  [  0x1.5d8fd1fd19ccdp-33; -0x1.ae5e5a9291f5dp-26;
     0x1.71de3567d48a1p-19; -0x1.a01a019bfdf03p-13;
     0x1.111111110f7d0p-7;  -0x1.5555555555548p-3 ]%float.

Definition cos_coefficients : list float :=
  [ -0x1.8fa49a0861a9bp-37;  0x1.1ee9d7b4e3f05p-29;
    -0x1.27e4f7eac4bc6p-22;  0x1.a01a019c844f5p-16;
    -0x1.6c16c16c14f91p-10;  0x1.555555555554bp-5 ]%float.

(** Horner evaluation [((c0*zz + c1)*zz + ...)*zz + c5]. *)
Definition horner (cs : list float) (zz : float) : float :=
  match cs with
  | [] => 0%float
  | c0 :: cs' => fold_left (fun acc c => (acc * zz + c)%float) cs' c0
  end.

Definition math_Sin (x : float) : float :=
  let PI4A := 0x1.921fb40000000p-1%float in
  let PI4B := 0x1.4442d00000000p-25%float in
  let PI4C := 0x1.8469898cc5170p-49%float in
  let M4PI := 0x1.45f306dc9c883p+0%float in
  if (x =? 0)%float || PrimFloat.is_nan x then x
  else if PrimFloat.is_infinity x then PrimFloat.nan
  else
    (* make argument positive but save the sign *)
    let sign := (x <? 0)%float in
    let x := PrimFloat.abs x in
    if (0x1p+29 <=? x)%float then PrimFloat.nan
    else
      let j := int_of_float (x * M4PI) in
      let y := float_of_Z j in
      (* map zeros to origin *)
      let '(j, y) := if Z.land j 1 =? 1 then (j + 1, (y + 1)%float)
                     else (j, y) in
      let j := Z.land j 7 in
      let z := (((x - y * PI4A) - y * PI4B) - y * PI4C)%float in
      (* reflect in x axis *)
      let '(sign, j) := if 3 <? j then (negb sign, j - 4) else (sign, j) in
      let zz := (z * z)%float in
      let y :=
        if (j =? 1) || (j =? 2)
        then (1 - 0x1p-1 * zz + zz * zz * horner cos_coefficients zz)%float
        else (z + z * zz * horner sin_coefficients zz)%float in
      if sign then PrimFloat.opp y else y.

Section Supercharge.

(** Go's [math.Sin], which is not part of this package. *)
Variable Sin : float -> float.

(* ---------------------------------------------------------------- *)
(** ** Tone synthesis *)

(** The sample that [tone] writes at position [i] of a cycle of [len]
    samples: the body of its loop up to the conversion [byte(y)]. *)
Definition tone_sample (len : Z) (volume : float) (i : Z) : Z :=
  let m := (two_pi / float_of_Z len)%float in
  let x := (m * float_of_Z i)%float in
  let y := ((Sin x * volume + 1) * 128)%float in
  byte_of_float y.

(** [tone]: one cycle of a sine wave of [len] samples. *)
Definition tone {W : Type} `{Writer W} (w : W) (len : Z) (volume : float)
  : W :=
  for_upto len (fun i w => Write w [tone_sample len volume i]) w.

(* ---------------------------------------------------------------- *)
(** ** The bit packer *)

(** [bitPacker].  Its field [w], the sink, is the state that the methods
    below take and return. *)
Record bitPacker : Type := mkBitPacker {
  pck_hz : Z;
  zeroBit : Buffer;
  oneBit : Buffer;
  bytesPerSecond : Z
}.

Definition newBitPacker (hz : Z) : bitPacker :=
  let zeroBit := tone ([] : Buffer) (int_of_Q zeroToneCycle)
                      (float64_of_Q zeroToneVolume) in
  let oneBit := tone ([] : Buffer) (int_of_Q oneToneCycle)
                     (float64_of_Q oneToneVolume) in
  let bytesPerSecond :=
    hz / int_of_Q (zeroToneCycle + oneToneCycle) / 4 in
  mkBitPacker hz zeroBit oneBit bytesPerSecond.

(** [bitPacker.writeByte]. *)
Definition writeByte {W : Type} `{Writer W} (pck : bitPacker) (w : W)
  (b : Z) : W :=
  fst (for_upto 8
         (fun _ '(w, b) =>
            let w := if Z.land b 0x80 =? 0x80
                     then Write w (oneBit pck)
                     else Write w (zeroBit pck) in
            (w, u8 (Z.shiftl b 1)))
         (w, b)).

(** [bitPacker.writeByteDuration]. *)
Definition writeByteDuration {W : Type} `{Writer W} (pck : bitPacker)
  (w : W) (b : Z) (duration : float) : W :=
  let ct := (duration * float_of_Z (bytesPerSecond pck))%float in
  for_upto (int_of_float ct) (fun _ w => writeByte pck w 0x55) w.

(* ---------------------------------------------------------------- *)
(** ** Conversion *)

(** The checksum of the header, as [Convert] computes it. *)
Definition headerChecksum
  (addressLow addressHigh bankConfig blockCount multiload
     progressSpeedLow progressSpeedHigh : Z) : Z :=
  u8 (u8 (u8 (u8 (u8 (u8 (u8 (0x55 - addressLow) - addressHigh)
                        - bankConfig) - blockCount) - multiload)
          - progressSpeedLow) - progressSpeedHigh).

(** The page number of a block, as the block loop of [Convert] computes
    it. *)
Definition blockPage (block : Z) : Z :=
  let page := u8 (u8 (block * 4) + 1) in
  if 0x1f <? page then u8 (page - 0x1f) else page.

(** The checksum of a block, as the block loop of [Convert] computes
    it from the page number and the 256 bytes [rom[s : s+256]]. *)
Definition blockChecksum (page : Z) (blk : list Z) : Z :=
  let checksum := 0x55 in
  let checksum := u8 (checksum - page) in
  fold_left (fun checksum b => u8 (checksum - b)) blk checksum.

(** The body of the block loop of [Convert]. *)
Definition writeBlock {L : Type} `{Writer L} (pck : bitPacker)
  (rom : list Z) (block : Z) (st : wav * L) : option (wav * L) :=
  let '(wv, logger) := st in
  let page := blockPage block in
  (* checksum *)
  let s := block * 256 in
  blk <- slice rom s (s + 256) ;;
  let checksum := blockChecksum page blk in
  let logger :=
    log logger (tab ++ "block " ++ dec block ++ ": checksum "
                    ++ hex02 checksum ++ nl) in
  (* write block number *)
  let wv := writeByte pck wv page in
  (* write checksum *)
  let wv := writeByte pck wv checksum in
  (* write block data *)
  let s := block * 256 in
  blk <- slice rom s (s + 256) ;;
  let wv := fold_left (fun wv b => writeByte pck wv b) blk wv in
  Some (wv, logger).

(** [Convert] up to its last statement: the WAV writer filled with the
    samples of the whole tape, and the log. *)
Definition Convert_wav {L : Type} `{Writer L} (rom : list Z) (logger : L)
  : option (wav * L) :=
  (* write wav header *)
  let wv := mkWav 1 1 (int_of_Q sampleRate) 8 [] in
  (* start tone *)
  let start := tone ([] : Buffer) (int_of_Q startToneCycle)
                    (float64_of_Q startToneVolume) in
  let ct := float64_of_Q (startToneSeconds * sampleRate / startToneCycle) in
  let wv := for_upto (int_of_float ct) (fun _ wv => Write wv start) wv in
  (* everything after the start tone is written by the bit packer *)
  let pck := newBitPacker (int_of_Q sampleRate) in
  let wv := writeByteDuration pck wv 0x55 (float64_of_Q headerToneSeconds) in
  let wv := writeByte pck wv 0x54 in
  (* header *)
  let len := Z.of_nat (List.length rom) in
  addressLow <- index rom (len - 4) ;;
  addressHigh <- index rom (len - 3) ;;
  let bankConfig := u8 0x1d in
  let blockCount := u8 (len / 256) in
  let multiload := u8 0 in
  let progressSpeedLow := u8 0xc3 in
  let progressSpeedHigh := u8 0x01 in
  (* calculate checksum *)
  let checksum :=
    headerChecksum addressLow addressHigh bankConfig blockCount multiload
                   progressSpeedLow progressSpeedHigh in
  let logger :=
    log logger (tab ++ "address: " ++ hex02 addressHigh ++ hex02 addressLow
                    ++ nl) in
  let logger := log logger (tab ++ "bank config: " ++ hex02 bankConfig ++ nl) in
  let logger := log logger (tab ++ "block count: " ++ hex02 blockCount ++ nl) in
  let logger := log logger (tab ++ "multiload: " ++ hex02 multiload ++ nl) in
  let logger :=
    log logger (tab ++ "load speed: " ++ hex02 progressSpeedHigh
                    ++ hex02 progressSpeedLow ++ nl) in
  let logger := log logger (tab ++ "checksum: " ++ hex02 checksum ++ nl) in
  let wv := writeByte pck wv addressLow in
  let wv := writeByte pck wv addressHigh in
  let wv := writeByte pck wv bankConfig in
  let wv := writeByte pck wv blockCount in
  let wv := writeByte pck wv checksum in
  let wv := writeByte pck wv multiload in
  let wv := writeByte pck wv progressSpeedLow in
  let wv := writeByte pck wv progressSpeedHigh in
  (* the game data; the counter [block] is a byte below [blockCount],
     so its increment never wraps *)
  st <- for_upto_opt blockCount (writeBlock pck rom) (wv, logger) ;;
  let '(wv, logger) := st in
  (* trailer *)
  let wv := writeByteDuration pck wv 0x00 (float64_of_Q endToneSeconds) in
  Some (wv, logger).

(** [Convert]: the sinks [w] and [logger] after the call; Go's returned
    error is always [nil]. *)
Definition Convert {W L : Type} `{Writer W} `{Writer L} (rom : list Z)
  (w : W) (logger : L) : option (W * L) :=
  st <- Convert_wav rom logger ;;
  let '(wv, logger) := st in
  (* write wav bytes *)
  Some (Write w (wav_Bytes wv), logger).

End Supercharge.


(* ------------------------------------------------------------------ *)
(** ** Vocabulary of the statements

    The definitions of this part are not code of the package: they name
    what the statements below speak about (bits of a byte, the samples
    that stand for a byte, the layout of the tape, a reader of the "fmt "
    sub-chunk). *)

(** The bits of a byte, most significant first. *)
Definition bits_msb (b : Z) : list bool :=
  [Z.testbit b 7; Z.testbit b 6; Z.testbit b 5; Z.testbit b 4;
   Z.testbit b 3; Z.testbit b 2; Z.testbit b 1; Z.testbit b 0].

(** The waveform table that stands for one bit. *)
Definition tone_of_bit (pck : bitPacker) (bit : bool) : Buffer :=
  if bit then oneBit pck else zeroBit pck.

(** The samples that stand for a byte, and for a sequence of bytes. *)
Definition tones_of_byte (pck : bitPacker) (b : Z) : list Z :=
  flat_map (tone_of_bit pck) (bits_msb b).

Definition tones_of_bytes (pck : bitPacker) (bs : list Z) : list Z :=
  flat_map (tones_of_byte pck) bs.

(** The integers [0, 1, ..., n-1]. *)
Definition upto (n : nat) : list Z := map Z.of_nat (seq 0 n).

(** The sum of a list of bytes, as an integer. *)
Definition sum (l : list Z) : Z := fold_right Z.add 0 l.

(** The 256 bytes of block [b] of a ROM. *)
Definition romBlock (rom : list Z) (b : Z) : list Z :=
  firstn 256 (skipn (Z.to_nat (b * 256)) rom).

(** The packet of block [b]: page number, checksum, the 256 bytes. *)
Definition packet (rom : list Z) (b : Z) : list Z :=
  blockPage b :: blockChecksum (blockPage b) (romBlock rom b)
    :: romBlock rom b.

(** [rom[i]] for an index in range. *)
Definition byte_at (rom : list Z) (i : Z) : Z := nth (Z.to_nat i) rom 0.

(** The eight bytes of the header. *)
Definition header (rom : list Z) : list Z :=
  let len := Z.of_nat (List.length rom) in
  let addressLow := byte_at rom (len - 4) in
  let addressHigh := byte_at rom (len - 3) in
  let blockCount := u8 (len / 256) in
  [addressLow; addressHigh; 0x1d; blockCount;
   headerChecksum addressLow addressHigh 0x1d blockCount 0 0xc3 0x01;
   0; 0xc3; 0x01].

(** The bytes that [Convert] hands to the bit packer, in order:
    calibration run, sync byte, header, packets, trailing run. *)
Definition tape (rom : list Z) : list Z :=
  let len := Z.of_nat (List.length rom) in
  (repeat 0x55 344 ++ [0x54] ++ header rom
     ++ flat_map (packet rom) (upto (Z.to_nat (u8 (len / 256))))
     ++ repeat 0x55 344)%list.

(** The ROM of the package's end-to-end example: 4096 zero bytes, except
    for the start address 0x1234 at offsets 4092 and 4093. *)
Definition example_rom : list Z := (repeat 0 4092 ++ [0x34; 0x12; 0; 0])%list.

(** The samples of the start tone: 86 cycles of 51 samples. *)
Definition startSamples (Sin : float -> float) : list Z :=
  List.concat
    (repeat (tone Sin ([] : Buffer) 51 (float64_of_Q startToneVolume)) 86).


(** The fields of a "fmt " sub-chunk. *)
Record fmt_chunk : Type := mkFmt {
  fmt_format : Z;
  fmt_channels : Z;
  fmt_sampleRate : Z;
  fmt_byteRate : Z;
  fmt_blockAlign : Z;
  fmt_depth : Z
}.

(** Little-endian decoding of the [n] bytes at offset [off]. *)
Definition read_le (file : list Z) (off n : nat) : Z :=
  fold_right (fun b acc => b + 256 * acc) 0 (firstn n (skipn off file)).

(** Equality of two byte sequences. *)
Fixpoint bytes_eqb (xs ys : list Z) : bool :=
  match xs, ys with
  | [], [] => true
  | x :: xs', y :: ys' => (x =? y) && bytes_eqb xs' ys'
  | _, _ => false
  end.

(** A reader of the canonical RIFF/WAVE layout: the chunk tags must be in
    place and the "fmt " sub-chunk must announce 16 bytes. *)
Definition decode_fmt (file : list Z) : option fmt_chunk :=
  if bytes_eqb (firstn 4 file) (bytes_of_string "RIFF")
     && bytes_eqb (firstn 8 (skipn 8 file)) (bytes_of_string "WAVEfmt ")
     && (read_le file 16 4 =? 16)
  then Some (mkFmt (read_le file 20 2) (read_le file 22 2)
                   (read_le file 24 4) (read_le file 28 4)
                   (read_le file 32 2) (read_le file 34 2))
  else None.

(** The count [n] that [wav.Write] returns: it is incremented once per
    buffered byte. *)
Definition wav_Write_n (w : wav) (p : list Z) : Z :=
  fold_left (fun n (_ : Z) => for_upto (channels w) (fun _ n => n + 1) n)
            p 0.

(** The number of bits of a byte that are set. *)
Definition ones (b : Z) : Z := sum (map Z.b2z (bits_msb b)).

(** The block whose page number is [p]: bank number in the two low bits,
    page offset above them. *)
Definition block_of_page (p : Z) : Z := 8 * ((p - 1) mod 4) + p / 4.

(** The lines that [Convert] hands to the logger: six for the header,
    then one per block. *)
Definition header_lines (rom : list Z) : list string :=
  let len := Z.of_nat (List.length rom) in
  let addressLow := byte_at rom (len - 4) in
  let addressHigh := byte_at rom (len - 3) in
  let blockCount := u8 (len / 256) in
  let checksum :=
    headerChecksum addressLow addressHigh 0x1d blockCount 0 0xc3 0x01 in
  [ tab ++ "address: " ++ hex02 addressHigh ++ hex02 addressLow ++ nl;
    tab ++ "bank config: " ++ hex02 0x1d ++ nl;
    tab ++ "block count: " ++ hex02 blockCount ++ nl;
    tab ++ "multiload: " ++ hex02 0 ++ nl;
    tab ++ "load speed: " ++ hex02 0x01 ++ hex02 0xc3 ++ nl;
    tab ++ "checksum: " ++ hex02 checksum ++ nl ]%string.

Definition block_line (rom : list Z) (b : Z) : string :=
  (tab ++ "block " ++ dec b ++ ": checksum "
       ++ hex02 (blockChecksum (blockPage b) (romBlock rom b)) ++ nl)%string.

Definition log_lines (rom : list Z) : list string :=
  (header_lines rom
     ++ map (block_line rom)
          (upto (Z.to_nat (u8 (Z.of_nat (List.length rom) / 256)))))%list.

(** Handing a list of lines to a logger, one [Write] per line. *)
Definition log_all {L : Type} `{Writer L} (logger : L) (lines : list string)
  : L :=
  fold_left (fun lg s => log lg s) lines logger.

(* ------------------------------------------------------------------ *)
(** ** The command-line program

    The program of [main.go] talks to the operating system.  Its embedding
    is a tree of the calls it makes, each with a continuation for the
    answer of the environment; [runs] gives the sequences of calls and
    answers that a tree admits, for an arbitrary environment.  The parsing
    of the command line by Go's [flag] package is not modelled: a
    [context] and the list of the remaining arguments are its result. *)

(** What the program can observe of an error of the operating system: its
    message ([err.Error()]) and whether [os.IsNotExist] holds of it. *)
Record oserror : Type := mkOsError {
  Error : string;
  IsNotExist : bool
}.

(** An answer [None] is Go's [nil] error. *)
Inductive io (A : Type) : Type :=
| Ret (a : A)
| Panic
| Stat (name : string) (k : option oserror -> io A)
| Open (name : string) (k : option oserror -> io A)
| ReadAll (name : string) (k : list Z * option oserror -> io A)
| Create (name : string) (k : option oserror -> io A)
| FileWrite (name : string) (p : list Z) (k : option oserror -> io A)
| Close (name : string) (k : option oserror -> io A)
| StdoutWrite (p : list Z) (k : option oserror -> io A)
| Usage (k : io A).

Arguments Ret {A} a.
Arguments Panic {A}.
Arguments Stat {A} name k.
Arguments Open {A} name k.
Arguments ReadAll {A} name k.
Arguments Create {A} name k.
Arguments FileWrite {A} name p k.
Arguments Close {A} name k.
Arguments StdoutWrite {A} p k.
Arguments Usage {A} k.

Fixpoint io_bind {A B : Type} (m : io A) (f : A -> io B) : io B :=
  match m with
  | Ret a => f a
  | Panic => Panic
  | Stat name k => Stat name (fun r => io_bind (k r) f)
  | Open name k => Open name (fun r => io_bind (k r) f)
  | ReadAll name k => ReadAll name (fun r => io_bind (k r) f)
  | Create name k => Create name (fun r => io_bind (k r) f)
  | FileWrite name p k => FileWrite name p (fun r => io_bind (k r) f)
  | Close name k => Close name (fun r => io_bind (k r) f)
  | StdoutWrite p k => StdoutWrite p (fun r => io_bind (k r) f)
  | Usage k => Usage (io_bind k f)
  end.

(** A call together with the answer it got. *)
Inductive event : Type :=
| EvStat (name : string) (r : option oserror)
| EvOpen (name : string) (r : option oserror)
| EvReadAll (name : string) (r : list Z * option oserror)
| EvCreate (name : string) (r : option oserror)
| EvFileWrite (name : string) (p : list Z) (r : option oserror)
| EvClose (name : string) (r : option oserror)
| EvStdoutWrite (p : list Z) (r : option oserror)
| EvUsage.

Inductive outcome (A : Type) : Type :=
| Returned (a : A)
| Panicked.

Arguments Returned {A} a.
Arguments Panicked {A}.

(** [runs m tr o]: the program [m] can make the calls of [tr], get the
    answers of [tr], and end with [o]. *)
Fixpoint runs {A : Type} (m : io A) (tr : list event) (o : outcome A)
  : Prop :=
  match m with
  | Ret a => tr = [] /\ o = Returned a
  | Panic => tr = [] /\ o = Panicked
  | Stat name k =>
      exists r tr', tr = EvStat name r :: tr' /\ runs (k r) tr' o
  | Open name k =>
      exists r tr', tr = EvOpen name r :: tr' /\ runs (k r) tr' o
  | ReadAll name k =>
      exists r tr', tr = EvReadAll name r :: tr' /\ runs (k r) tr' o
  | Create name k =>
      exists r tr', tr = EvCreate name r :: tr' /\ runs (k r) tr' o
  | FileWrite name p k =>
      exists r tr', tr = EvFileWrite name p r :: tr' /\ runs (k r) tr' o
  | Close name k =>
      exists r tr', tr = EvClose name r :: tr' /\ runs (k r) tr' o
  | StdoutWrite p k =>
      exists r tr', tr = EvStdoutWrite p r :: tr' /\ runs (k r) tr' o
  | Usage k => exists tr', tr = EvUsage :: tr' /\ runs k tr' o
  end.

(** An environment whose answers depend on the call only, and the run of
    a program in it. *)
Record world : Type := mkWorld {
  on_stat : string -> option oserror;
  on_open : string -> option oserror;
  on_read : string -> list Z * option oserror;
  on_create : string -> option oserror;
  on_write : string -> list Z -> option oserror;
  on_close : string -> option oserror;
  on_stdout : list Z -> option oserror
}.

Fixpoint exec {A : Type} (w : world) (m : io A) : list event * outcome A :=
  match m with
  | Ret a => ([], Returned a)
  | Panic => ([], Panicked)
  | Stat name k =>
      let r := on_stat w name in
      let '(tr, o) := exec w (k r) in (EvStat name r :: tr, o)
  | Open name k =>
      let r := on_open w name in
      let '(tr, o) := exec w (k r) in (EvOpen name r :: tr, o)
  | ReadAll name k =>
      let r := on_read w name in
      let '(tr, o) := exec w (k r) in (EvReadAll name r :: tr, o)
  | Create name k =>
      let r := on_create w name in
      let '(tr, o) := exec w (k r) in (EvCreate name r :: tr, o)
  | FileWrite name p k =>
      let r := on_write w name p in
      let '(tr, o) := exec w (k r) in (EvFileWrite name p r :: tr, o)
  | Close name k =>
      let r := on_close w name in
      let '(tr, o) := exec w (k r) in (EvClose name r :: tr, o)
  | StdoutWrite p k =>
      let r := on_stdout w p in
      let '(tr, o) := exec w (k r) in (EvStdoutWrite p r :: tr, o)
  | Usage k => let '(tr, o) := exec w k in (EvUsage :: tr, o)
  end.

(** The [context] of [main.go]: the command-line switches. *)
Record context : Type := mkContext {
  verbose : bool;
  overwrite : bool
}.

(** [context.Write]; the result is the count [n]. *)
Definition context_Write (ctx : context) (p : list Z) : io Z :=
  if verbose ctx
  then StdoutWrite p (fun _ => Ret (Z.of_nat (List.length p)))
  else Ret 0.

Section Program.

(** Go's [math.Sin], [filepath.Ext], [filepath.Base], [filepath.Clean] and
    [strings.CutSuffix], which are not part of the program. *)
Variable Sin : float -> float.
Variables Ext Base Clean : string -> string.
Variable CutSuffix : string -> string -> string * bool.

(** [process].  The [*os.File] that [Convert] writes to is the buffer of
    what is written to it during the call, which reaches the file as one
    write, as [Convert] makes one; the error that [Convert] returns is
    always [nil], so that the test of it has no counterpart.  Deferred
    calls run when the function returns, the last deferred first, and
    also when it panics. *)
Definition process (ctx : context) (romFile : string)
  : io (option string) :=
  (* create filename for wav file *)
  let wavFile := fst (CutSuffix romFile (Ext romFile)) in
  let wavFile := (wavFile ++ ".wav")%string in
  let rest : io (option string) :=
    (* open rom file and read the data in its entirety *)
    Open romFile (fun err =>
    match err with
    | Some err => Ret (Some (Base romFile ++ ": " ++ Error err)%string)
    | None =>
    (* defer r.Close() *)
    let close_r (m : io (option string)) := Close romFile (fun _ => m) in
    ReadAll romFile (fun '(rom, err) =>
    match err with
    | Some err =>
        close_r (Ret (Some (Base romFile ++ ": " ++ Error err)%string))
    | None =>
    (* validate with the supercharge package that this rom data is okay *)
    match Validate rom with
    | Some _ => close_r (Ret (Some (Base romFile ++ " skipped")%string))
    | None =>
    (* create wav file *)
    Create wavFile (fun err =>
    match err with
    | Some err =>
        close_r (Ret (Some (Base romFile ++ ": " ++ Error err)%string))
    | None =>
    (* defer w.Close() *)
    let close_w (m : io (option string)) := Close wavFile (fun _ => m) in
    (* convert rom data to wav file *)
    match Convert Sin rom ([] : Buffer) ([] : Buffer) with
    | None => close_w (close_r Panic)
    | Some (written, results) =>
        FileWrite wavFile written (fun _ =>
        (* display results *)
        io_bind (context_Write ctx
                   (bytes_of_string (Base romFile ++ " converted" ++ nl)))
                (fun _ =>
        io_bind (context_Write ctx results) (fun _ =>
        close_w (close_r (Ret None)))))
    end
    end)
    end
    end)
    end) in
  (* check whether wav file already exists *)
  if negb (overwrite ctx)
  then
    Stat wavFile (fun err =>
      if match err with
         | None => true
         | Some e => negb (IsNotExist e)
         end
      then Ret (Some (Base wavFile ++ " already exists")%string)
      else rest)
  else rest.

(** The loop of [main] over the arguments. *)
Fixpoint main_loop (ctx : context) (args : list string) : io unit :=
  match args with
  | [] => Ret tt
  | f :: args' =>
      let f := Clean f in
      io_bind (process ctx f) (fun err =>
      match err with
      | Some e =>
          io_bind (context_Write ctx (bytes_of_string (e ++ nl)))
                  (fun _ => main_loop ctx args')
      | None => main_loop ctx args'
      end)
  end.

(** [main], after the command line is parsed.  [Usage] stands for the
    call of [flag.Usage]. *)
Definition main (ctx : context) (args : list string) : io unit :=
  (* display usage if no rom files have been specified *)
  if (Z.of_nat (List.length args) =? 0)
  then Usage (Ret tt)
  else (* process all files specified on the command line *)
       main_loop ctx args.

End Program.

(** File names without a directory part and with the extension [".bin"],
    for running the program: on them [filepath.Clean] and [filepath.Base]
    are the identity, [filepath.Ext] is [".bin"] and [strings.CutSuffix]
    removes it. *)
Definition plain_Ext (name : string) : string := ".bin".
Definition plain_Base (name : string) : string := name.
Definition plain_Clean (name : string) : string := name.
Definition plain_CutSuffix (name suffix : string) : string * bool :=
  (String.substring 0 (String.length name - String.length suffix) name,
   true).

(** An environment in which no wav file exists yet, the ROM file holds
    [rom], and every call succeeds. *)
Definition world_with_rom (rom : list Z) : world :=
  mkWorld (fun _ => Some (mkOsError "no such file or directory" true))
          (fun _ => None)
          (fun _ => (rom, None))
          (fun _ => None)
          (fun _ _ => None)
          (fun _ => None)
          (fun _ => None).

(** The name of the wav file that [process] derives from the name of the
    ROM file. *)
Definition wavFile_of (Ext : string -> string)
  (CutSuffix : string -> string -> string * bool) (romFile : string)
  : string :=
  (fst (CutSuffix romFile (Ext romFile)) ++ ".wav")%string.

(** Whether an event is a write on the standard output. *)
Definition is_stdout (e : event) : bool :=
  match e with
  | EvStdoutWrite _ _ => true
  | _ => false
  end.

(** Whether an event hands a file to the program: an [os.Open] or an
    [os.Create] that succeeded. *)
Definition acquires (e : event) : bool :=
  match e with
  | EvOpen _ None | EvCreate _ None => true
  | _ => false
  end.

(** Whether an event is the closing of a file. *)
Definition releases (e : event) : bool :=
  match e with
  | EvClose _ _ => true
  | _ => false
  end.

(** The names that were given to [os.Open], in the order of the calls. *)
Fixpoint opened (tr : list event) : list string :=
  match tr with
  | [] => []
  | EvOpen name _ :: tr' => name :: opened tr'
  | _ :: tr' => opened tr'
  end.

(** The calls of a conversion that goes through, with their answers. *)
Definition converted_trace (verbose : bool) (romFile wavFile base : string)
  (rom out results : list Z) (rw r1 r2 rcw rcr : option oserror)
  : list event :=
  ([EvOpen romFile None; EvReadAll romFile (rom, None);
    EvCreate wavFile None; EvFileWrite wavFile out rw]
     ++ (if verbose
         then [EvStdoutWrite (bytes_of_string (base ++ " converted" ++ nl))
                 r1;
               EvStdoutWrite results r2]
         else [])
     ++ [EvClose wavFile rcw; EvClose romFile rcr])%list.

(* ------------------------------------------------------------------ *)
(** ** The embedding at work *)

Example zero_tone_table :
  zeroBit (newBitPacker math_Sin 44100) = [128; 236; 236; 128; 19; 19].
Proof. vm_compute. reflexivity. Qed.

Example one_tone_table :
  oneBit (newBitPacker math_Sin 44100)
  = [128; 201; 247; 247; 201; 128; 54; 8; 8; 54].
Proof. vm_compute. reflexivity. Qed.

Example bytesPerSecond_example :
  bytesPerSecond (newBitPacker math_Sin 44100) = 689.
Proof. vm_compute. reflexivity. Qed.

(** The sync byte 0x54 = 01010100: zero, one, zero, one, zero, one, zero,
    zero. *)
Example writeByte_sync :
  let pck := newBitPacker math_Sin 44100 in
  data (writeByte pck (mkWav 1 1 44100 8 []) 0x54)
  = (zeroBit pck ++ oneBit pck ++ zeroBit pck ++ oneBit pck
       ++ zeroBit pck ++ oneBit pck ++ zeroBit pck ++ zeroBit pck)%list.
Proof. vm_compute. reflexivity. Qed.

(** A run of no duration writes nothing. *)
Example writeByteDuration_zero :
  let pck := newBitPacker math_Sin 44100 in
  data (writeByteDuration pck (mkWav 1 1 44100 8 []) 0xaa 0%float) = [].
Proof. vm_compute. reflexivity. Qed.

(** With two channels every sample is buffered twice. *)
Example wav_Write_stereo :
  data (Write (mkWav 1 2 44100 8 [7]) [1; 2; 3]) = [7; 1; 1; 2; 2; 3; 3].
Proof. vm_compute. reflexivity. Qed.

Example wav_Bytes_example :
  wav_Bytes (mkWav 1 1 44100 8 [1; 2; 3])
  = [82; 73; 70; 70; 39; 0; 0; 0; 87; 65; 86; 69; 102; 109; 116; 32;
     16; 0; 0; 0; 1; 0; 1; 0; 68; 172; 0; 0; 68; 172; 0; 0; 0; 0; 8; 0;
     100; 97; 116; 97; 3; 0; 0; 0; 1; 2; 3].
Proof. vm_compute. reflexivity. Qed.

(** The header of the end-to-end example: address 0x1234, checksum
    0x55 - 0x34 - 0x12 - 0x1d - 0x10 - 0x00 - 0xc3 - 0x01 = 0x1e. *)
Example header_example :
  header example_rom = [0x34; 0x12; 0x1d; 0x10; 0x1e; 0x00; 0xc3; 0x01].
Proof. vm_compute. reflexivity. Qed.

Example blockPage_table :
  map blockPage (upto 16)
  = [1; 5; 9; 13; 17; 21; 25; 29; 2; 6; 10; 14; 18; 22; 26; 30].
Proof. vm_compute. reflexivity. Qed.

Example log_example :
  log ([] : Buffer) (tab ++ "block " ++ dec 12 ++ ": checksum "
                         ++ hex02 0xa7 ++ nl)
  = [9; 98; 108; 111; 99; 107; 32; 49; 50; 58; 32; 99; 104; 101; 99; 107;
     115; 117; 109; 32; 97; 55; 10].
Proof. vm_compute. reflexivity. Qed.

Example Validate_example_rom : Validate example_rom = None.
Proof. vm_compute. reflexivity. Qed.

Example Validate_short :
  Validate [1; 2; 3] = Some (UnsupportedSize 3).
Proof. vm_compute. reflexivity. Qed.

(** [Validate] accepts exactly the ROMs of 4096 bytes. *)
Lemma Validate_nil_iff (rom : list Z) :
  Validate rom = None <-> Z.of_nat (List.length rom) = 4096.
Proof.
  unfold Validate.
  destruct (Z.eqb_spec (Z.of_nat (List.length rom)) 4096); simpl;
    split; congruence.
Qed.

(* ------------------------------------------------------------------ *)
(** ** Loops and writers *)

Section Loops.

Context {S : Type}.

Lemma for_upto_succ (n : nat) (body : Z -> S -> S) (s : S) :
  for_upto (Z.of_nat (Datatypes.S n)) body s
  = body (Z.of_nat n) (for_upto (Z.of_nat n) body s).
Proof.
  unfold for_upto. rewrite !Nat2Z.id, seq_S, fold_left_app. reflexivity.
Qed.

(** A loop is determined by its iteration count. *)
Lemma for_upto_to_nat (n : Z) (body : Z -> S -> S) (s : S) :
  for_upto n body s = for_upto (Z.of_nat (Z.to_nat n)) body s.
Proof. unfold for_upto. now rewrite Nat2Z.id. Qed.

Lemma for_upto_opt_succ (n : nat) (body : Z -> S -> option S) (s : S) :
  for_upto_opt (Z.of_nat (Datatypes.S n)) body s
  = bind (for_upto_opt (Z.of_nat n) body s) (body (Z.of_nat n)).
Proof.
  unfold for_upto_opt. rewrite !Nat2Z.id, seq_S, fold_left_app. reflexivity.
Qed.

End Loops.

Lemma upto_succ (n : nat) : upto (S n) = (upto n ++ [Z.of_nat n])%list.
Proof. unfold upto. now rewrite seq_S, map_app. Qed.

Lemma length_upto (n : nat) : List.length (upto n) = n.
Proof. unfold upto. now rewrite length_map, length_seq. Qed.

(** Writing to a buffer in a loop appends the items in order. *)
Lemma for_upto_Buffer (n : nat) (f : Z -> list Z) (buf : Buffer) :
  for_upto (Z.of_nat n) (fun i w => Write w (f i)) buf
  = (buf ++ flat_map f (upto n))%list.
Proof.
  induction n as [|n IH].
  - simpl. now rewrite app_nil_r.
  - rewrite for_upto_succ, IH, upto_succ, flat_map_app. simpl.
    unfold Write, Buffer_Writer. now rewrite app_nil_r, app_assoc.
Qed.

(** With one channel, [wav.Write] appends its argument to the samples. *)
Lemma wav_Write_mono (f h d : Z) (dat : Buffer) (p : list Z) :
  Write (mkWav f 1 h d dat) p = mkWav f 1 h d (dat ++ p).
Proof.
  unfold Write, wav_Writer, wav_Write, set_data. simpl. f_equal.
  revert dat. induction p as [|b p IH]; intros dat; simpl.
  - now rewrite app_nil_r.
  - rewrite IH. unfold for_upto, WriteByte. simpl.
    now rewrite <- app_assoc.
Qed.

Lemma for_upto_WriteByte (k : nat) (b : Z) (dat : Buffer) :
  for_upto (Z.of_nat k) (fun _ d => WriteByte d b) dat
  = (dat ++ repeat b k)%list.
Proof.
  induction k as [|k IHk].
  - simpl. now rewrite app_nil_r.
  - rewrite for_upto_succ, IHk. unfold WriteByte.
    rewrite <- app_assoc. f_equal.
    change [b] with (repeat b 1). rewrite <- repeat_app.
    now rewrite Nat.add_1_r.
Qed.

(** With [c] channels, [wav.Write] appends every byte [c] times. *)
Lemma wav_Write_data (w : wav) (p : list Z) :
  data (wav_Write w p)
  = (data w ++ flat_map (fun b => repeat b (Z.to_nat (channels w))) p)%list.
Proof.
  unfold wav_Write, set_data. simpl.
  generalize (data w) as dat.
  induction p as [|b p IH]; intros dat; simpl.
  - now rewrite app_nil_r.
  - rewrite IH, app_assoc. f_equal.
    rewrite for_upto_to_nat. apply for_upto_WriteByte.
Qed.

(* ------------------------------------------------------------------ *)
(** ** Bits of a byte *)

Lemma land_0x80 (x : Z) : (Z.land x 0x80 =? 0x80) = Z.testbit x 7.
Proof.
  assert (E : Z.land x 0x80 = if Z.testbit x 7 then 0x80 else 0).
  { apply Z.bits_inj'. intros n Hn.
    rewrite Z.land_spec. change 0x80 with (2 ^ 7).
    rewrite Z.pow2_bits_eqb by lia.
    destruct (Z.eqb_spec 7 n) as [<- | Hne].
    - rewrite andb_true_r. destruct (Z.testbit x 7).
      + now rewrite Z.pow2_bits_true.
      + now rewrite Z.bits_0.
    - rewrite andb_false_r. destruct (Z.testbit x 7).
      + now rewrite Z.pow2_bits_false.
      + now rewrite Z.bits_0. }
  rewrite E. now destruct (Z.testbit x 7).
Qed.

Lemma testbit_u8_shiftl (x j : Z) :
  0 < j < 8 -> Z.testbit (u8 (Z.shiftl x 1)) j = Z.testbit x (j - 1).
Proof.
  intros Hj. unfold u8. change 256 with (2 ^ 8).
  rewrite Z.mod_pow2_bits_low by lia.
  now rewrite Z.shiftl_spec by lia.
Qed.

(* ------------------------------------------------------------------ *)
(** ** Checksums and page numbers *)

Lemma u8_sub_l (a b : Z) : u8 (u8 a - b) = u8 (a - b).
Proof. unfold u8. apply Zminus_mod_idemp_l. Qed.

Lemma headerChecksum_closed (aL aH bank count multi pL pH : Z) :
  headerChecksum aL aH bank count multi pL pH
  = (0x55 - aL - aH - bank - count - multi - pL - pH) mod 256.
Proof.
  unfold headerChecksum.
  rewrite (u8_sub_l (0x55 - aL)).
  rewrite (u8_sub_l (0x55 - aL - aH)).
  rewrite (u8_sub_l (0x55 - aL - aH - bank)).
  rewrite (u8_sub_l (0x55 - aL - aH - bank - count)).
  rewrite (u8_sub_l (0x55 - aL - aH - bank - count - multi)).
  rewrite (u8_sub_l (0x55 - aL - aH - bank - count - multi - pL)).
  reflexivity.
Qed.

Lemma headerChecksum_sum (aL aH bank count multi pL pH : Z) :
  (aL + aH + bank + count
   + headerChecksum aL aH bank count multi pL pH + multi + pL + pH) mod 256
  = 0x55.
Proof.
  rewrite headerChecksum_closed.
  set (c := 0x55 - aL - aH - bank - count - multi - pL - pH).
  replace (aL + aH + bank + count + c mod 256 + multi + pL + pH)
    with (0x55 - c + c mod 256) by (unfold c; lia).
  rewrite Zplus_mod_idemp_r.
  replace (0x55 - c + c) with 0x55 by lia. reflexivity.
Qed.

Lemma fold_sub_u8 (blk : list Z) (x : Z) :
  fold_left (fun checksum b => u8 (checksum - b)) blk (u8 x)
  = u8 (x - sum blk).
Proof.
  revert x. induction blk as [|b blk IH]; intros x; simpl.
  - now rewrite Z.sub_0_r.
  - rewrite u8_sub_l, IH. f_equal. lia.
Qed.

Lemma blockChecksum_closed (page : Z) (blk : list Z) :
  blockChecksum page blk = (0x55 - page - sum blk) mod 256.
Proof. unfold blockChecksum. cbv zeta. now rewrite fold_sub_u8. Qed.

Lemma blockChecksum_sum (page : Z) (blk : list Z) :
  (page + sum blk + blockChecksum page blk) mod 256 = 0x55.
Proof.
  rewrite blockChecksum_closed, Zplus_mod_idemp_r.
  replace (page + sum blk + (0x55 - page - sum blk)) with 0x55 by lia.
  reflexivity.
Qed.

Lemma blockPage_closed (b : Z) :
  0 <= b < 16 ->
  blockPage b = if 0x1f <? b * 4 + 1 then b * 4 + 1 - 0x1f else b * 4 + 1.
Proof.
  intros Hb. unfold blockPage, u8. cbv zeta.
  rewrite (Z.mod_small (b * 4)) by lia.
  rewrite (Z.mod_small (b * 4 + 1)) by lia.
  destruct (Z.ltb_spec 0x1f (b * 4 + 1)); [|reflexivity].
  apply Z.mod_small. lia.
Qed.

(* ------------------------------------------------------------------ *)
(** ** The container file *)

Lemma wav_Bytes_length (wv : wav) :
  Z.of_nat (List.length (wav_Bytes wv))
  = 44 + Z.of_nat (List.length (data wv)).
Proof.
  unfold wav_Bytes, Write, Buffer_Writer. cbv zeta.
  rewrite !length_app. cbn [List.length app le16 le32 bytes_of_string
    list_ascii_of_string map]. lia.
Qed.

(** The layout of the file: 44 bytes of framing, then the samples. *)
Lemma wav_Bytes_layout (wv : wav) :
  wav_Bytes wv
  = (bytes_of_string "RIFF"
       ++ le32 (36 + Z.of_nat (List.length (data wv)))
       ++ bytes_of_string "WAVE" ++ bytes_of_string "fmt "
       ++ le32 16
       ++ le16 (format wv) ++ le16 (channels wv)
       ++ le32 (hz wv) ++ le32 (hz wv)
       ++ le16 (Z.land (channels wv) (depth wv)) ++ le16 (depth wv)
       ++ bytes_of_string "data"
       ++ le32 (Z.of_nat (List.length (data wv))) ++ data wv)%list.
Proof.
  unfold wav_Bytes, Write, Buffer_Writer. cbv zeta.
  rewrite !app_nil_l, <- !app_assoc.
  do 3 f_equal. rewrite !length_app.
  cbn [List.length le16 le32 bytes_of_string list_ascii_of_string map].
  lia.
Qed.

Lemma decode_fmt_fixed (dat : Buffer) :
  decode_fmt (wav_Bytes (mkWav 1 1 44100 8 dat))
  = Some (mkFmt 1 1 44100 44100 0 8).
Proof. rewrite wav_Bytes_layout. reflexivity. Qed.

Lemma blockAlign_bytes (wv : wav) :
  firstn 2 (skipn 32 (wav_Bytes wv))
  = le16 (Z.land (channels wv) (depth wv)).
Proof. rewrite wav_Bytes_layout. reflexivity. Qed.

Section Properties.

Variable Sin : float -> float.

(* ---------------------------------------------------------------- *)
(** ** Tone tables *)

Lemma flat_map_singleton {A B : Type} (g : A -> B) (l : list A) :
  flat_map (fun a => [g a]) l = map g l.
Proof. induction l; simpl; congruence. Qed.

Lemma tone_Buffer (len : Z) (volume : float) :
  tone Sin ([] : Buffer) len volume
  = map (tone_sample Sin len volume) (upto (Z.to_nat len)).
Proof.
  unfold tone. rewrite for_upto_to_nat.
  rewrite (for_upto_Buffer _ (fun i => [tone_sample Sin len volume i])).
  simpl. apply flat_map_singleton.
Qed.

Lemma tone_length (len : Z) (volume : float) :
  List.length (tone Sin ([] : Buffer) len volume) = Z.to_nat len.
Proof. now rewrite tone_Buffer, length_map, length_upto. Qed.


Lemma newBitPacker_tables (hz : Z) :
  List.length (zeroBit (newBitPacker Sin hz)) = 6%nat
  /\ List.length (oneBit (newBitPacker Sin hz)) = 10%nat.
Proof.
  unfold newBitPacker. cbn [zeroBit oneBit]. now rewrite !tone_length.
Qed.

(* ---------------------------------------------------------------- *)
(** ** The bit packer *)

Section BitPacker.

Context {W : Type} `{Writer W}.
Variable pck : bitPacker.

(** The loop of [writeByte], after [n] of its iterations. *)
Lemma writeByte_loop (n : nat) :
  (n <= 8)%nat ->
  forall (a : nat) (w : W) (b : Z),
    fst (fold_left
           (fun s i =>
              (fun (_ : Z) '(w, b) =>
                 let w := if Z.land b 0x80 =? 0x80
                          then Write w (oneBit pck)
                          else Write w (zeroBit pck) in
                 (w, u8 (Z.shiftl b 1))) (Z.of_nat i) s)
           (seq a n) (w, b))
    = fold_left (fun w bit => Write w (tone_of_bit pck bit))
                (map (fun i => Z.testbit b (7 - Z.of_nat i)) (seq 0 n)) w.
Proof.
  induction n as [|n IH]; intros Hn a w b.
  - reflexivity.
  - cbn [seq fold_left map]. rewrite IH by lia.
    rewrite land_0x80. change (7 - Z.of_nat 0) with 7.
    rewrite <- seq_shift, map_map.
    f_equal.
    + apply map_ext_in. intros i Hi. apply in_seq in Hi.
      rewrite testbit_u8_shiftl by lia. f_equal. lia.
    + unfold tone_of_bit. now destruct (Z.testbit b 7).
Qed.

Lemma writeByte_bits (w : W) (b : Z) :
  writeByte pck w b
  = fold_left (fun w bit => Write w (tone_of_bit pck bit)) (bits_msb b) w.
Proof.
  unfold writeByte, for_upto. now rewrite writeByte_loop by (simpl; lia).
Qed.

End BitPacker.

(* ---------------------------------------------------------------- *)
(** ** The bit packer on a one-channel WAV writer *)

Section Mono.

Variable pck : bitPacker.
Variables f h d : Z.

Lemma writeByte_wav (dat : Buffer) (b : Z) :
  writeByte pck (mkWav f 1 h d dat) b
  = mkWav f 1 h d (dat ++ tones_of_byte pck b).
Proof.
  rewrite writeByte_bits. unfold tones_of_byte.
  generalize (bits_msb b) as bits. intros bits. revert dat.
  induction bits as [|bit bits IH]; intros dat; simpl.
  - now rewrite app_nil_r.
  - now rewrite wav_Write_mono, IH, app_assoc.
Qed.

Lemma writeBytes_wav (bs : list Z) (dat : Buffer) :
  fold_left (fun wv b => writeByte pck wv b) bs (mkWav f 1 h d dat)
  = mkWav f 1 h d (dat ++ tones_of_bytes pck bs).
Proof.
  revert dat. induction bs as [|b bs IH]; intros dat; simpl.
  - now rewrite app_nil_r.
  - now rewrite writeByte_wav, IH, app_assoc.
Qed.

Lemma repeat_writeByte_wav (n : Z) (b : Z) (dat : Buffer) :
  for_upto n (fun _ wv => writeByte pck wv b) (mkWav f 1 h d dat)
  = mkWav f 1 h d (dat ++ tones_of_bytes pck (repeat b (Z.to_nat n))).
Proof.
  rewrite for_upto_to_nat.
  induction (Z.to_nat n) as [|k IH].
  - simpl. now rewrite app_nil_r.
  - rewrite for_upto_succ, IH, writeByte_wav.
    cbn [repeat]. rewrite repeat_cons. unfold tones_of_bytes.
    rewrite flat_map_app. simpl.
    now rewrite app_nil_r, app_assoc.
Qed.

Lemma writeByteDuration_wav (dat : Buffer) (b : Z) (duration : float) :
  writeByteDuration pck (mkWav f 1 h d dat) b duration
  = mkWav f 1 h d
      (dat ++ tones_of_bytes pck
         (repeat 0x55
            (Z.to_nat
               (int_of_float
                  (duration * float_of_Z (bytesPerSecond pck))%float)))).
Proof. unfold writeByteDuration. apply repeat_writeByte_wav. Qed.

Lemma repeat_Write_wav (n : Z) (p : list Z) (dat : Buffer) :
  for_upto n (fun _ wv => Write wv p) (mkWav f 1 h d dat)
  = mkWav f 1 h d (dat ++ List.concat (repeat p (Z.to_nat n))).
Proof.
  rewrite for_upto_to_nat.
  induction (Z.to_nat n) as [|k IH].
  - simpl. now rewrite app_nil_r.
  - rewrite for_upto_succ, IH, wav_Write_mono.
    cbn [repeat]. rewrite repeat_cons, concat_app. simpl.
    now rewrite app_nil_r, app_assoc.
Qed.

End Mono.

(* ---------------------------------------------------------------- *)
(** ** The tape that [Convert] writes *)

Lemma index_in_range (l : list Z) (i : Z) :
  0 <= i < Z.of_nat (List.length l) ->
  index l i = Some (byte_at l i).
Proof.
  intros Hi. unfold index.
  destruct (Z.ltb_spec i 0); [lia|].
  unfold byte_at. apply nth_error_nth'. lia.
Qed.

Lemma slice_block (rom : list Z) (b : Z) :
  0 <= b -> b * 256 + 256 <= Z.of_nat (List.length rom) ->
  slice rom (b * 256) (b * 256 + 256) = Some (romBlock rom b).
Proof.
  intros Hb Hlen. unfold slice, romBlock.
  destruct (Z.leb_spec 0 (b * 256)); [|lia].
  destruct (Z.leb_spec (b * 256) (b * 256 + 256)); [|lia].
  destruct (Z.leb_spec (b * 256 + 256) (Z.of_nat (List.length rom))); [|lia].
  cbn [andb].
  replace (b * 256 + 256 - b * 256) with 256 by lia.
  reflexivity.
Qed.

Lemma romBlock_length (rom : list Z) (b : Z) :
  0 <= b -> b * 256 + 256 <= Z.of_nat (List.length rom) ->
  List.length (romBlock rom b) = 256%nat.
Proof.
  intros Hb Hlen. unfold romBlock.
  rewrite length_firstn, length_skipn. lia.
Qed.

Lemma tones_of_bytes_app (pck : bitPacker) (xs ys : list Z) :
  tones_of_bytes pck (xs ++ ys)
  = (tones_of_bytes pck xs ++ tones_of_bytes pck ys)%list.
Proof. apply flat_map_app. Qed.

Lemma tones_of_bytes_one (pck : bitPacker) (b : Z) :
  tones_of_byte pck b = tones_of_bytes pck [b].
Proof. unfold tones_of_bytes. simpl. now rewrite app_nil_r. Qed.

Section Blocks.

Context {L : Type} `{Writer L}.
Variable pck : bitPacker.
Variable rom : list Z.
Variables f h d : Z.

Lemma writeBlock_wav (b : Z) (dat : Buffer) (logger : L) :
  0 <= b -> b * 256 + 256 <= Z.of_nat (List.length rom) ->
  exists logger',
    writeBlock pck rom b (mkWav f 1 h d dat, logger)
    = Some (mkWav f 1 h d (dat ++ tones_of_bytes pck (packet rom b)),
            logger').
Proof.
  intros Hb Hlen. unfold writeBlock.
  rewrite slice_block by assumption. cbn [bind].
  rewrite !writeByte_wav, writeBytes_wav.
  eexists. do 2 f_equal.
  unfold packet, tones_of_bytes. cbn [flat_map].
  now rewrite <- !app_assoc.
Qed.

Lemma writeBlocks_wav (n : nat) :
  Z.of_nat n * 256 <= Z.of_nat (List.length rom) ->
  forall (dat : Buffer) (logger : L),
  exists logger',
    for_upto_opt (Z.of_nat n) (writeBlock pck rom) (mkWav f 1 h d dat, logger)
    = Some (mkWav f 1 h d
              (dat ++ tones_of_bytes pck (flat_map (packet rom) (upto n))),
            logger').
Proof.
  induction n as [|n IH]; intros Hlen dat logger.
  - exists logger. simpl. now rewrite app_nil_r.
  - destruct (IH ltac:(lia) dat logger) as [lg1 E1].
    rewrite for_upto_opt_succ, E1. cbn [bind].
    destruct (writeBlock_wav (Z.of_nat n)
                (dat ++ tones_of_bytes pck (flat_map (packet rom) (upto n)))
                lg1 ltac:(lia) ltac:(lia)) as [lg2 E2].
    exists lg2. rewrite E2. do 2 f_equal.
    rewrite upto_succ, flat_map_app, tones_of_bytes_app.
    cbn [flat_map]. now rewrite app_nil_r, app_assoc.
Qed.

End Blocks.

Lemma start_count :
  Z.to_nat
    (int_of_float
       (float64_of_Q (startToneSeconds * sampleRate / startToneCycle)))
  = 86%nat.
Proof. vm_compute. reflexivity. Qed.

Lemma bytesPerSecond_44100 : bytesPerSecond (newBitPacker Sin 44100) = 689.
Proof. reflexivity. Qed.

Lemma run_count (seconds : Q) :
  Qeq seconds (1 # 2) ->
  Z.to_nat (int_of_float (float64_of_Q seconds * float_of_Z 689)%float)
  = 344%nat.
Proof.
  intros E. unfold float64_of_Q.
  rewrite (Qred_complete _ _ E). vm_compute. reflexivity.
Qed.

Lemma u8_le (z : Z) : 0 <= z -> 0 <= u8 z <= z.
Proof.
  intros Hz. unfold u8. split.
  - apply Z.mod_pos_bound. lia.
  - apply Z.mod_le; lia.
Qed.

(** The samples that [Convert] buffers: the start tone, then the tones of
    the bytes of [tape], for every ROM that is long enough to hold an
    address. *)
Lemma Convert_wav_tape {L : Type} `{Writer L} (rom : list Z) (logger : L) :
  4 <= Z.of_nat (List.length rom) ->
  exists logger',
    Convert_wav Sin rom logger
    = Some (mkWav 1 1 44100 8
              (startSamples Sin
                 ++ tones_of_bytes (newBitPacker Sin 44100) (tape rom)),
            logger').
Proof.
  intros Hlen. unfold Convert_wav. cbv zeta.
  change (int_of_Q sampleRate) with 44100.
  change (int_of_Q startToneCycle) with 51.
  rewrite !index_in_range by lia. cbn [bind].
  rewrite repeat_Write_wav, start_count.
  rewrite !writeByteDuration_wav, !writeByte_wav.
  set (pck := newBitPacker Sin 44100).
  set (len := Z.of_nat (List.length rom)) in *.
  assert (Hq : 0 <= len / 256) by (apply Z.div_pos; lia).
  assert (Hm : len / 256 * 256 <= len).
  { pose proof (Z.mul_div_le len 256 ltac:(lia)). lia. }
  pose proof (u8_le (len / 256) Hq) as Hc.
  rewrite <- (Z2Nat.id (u8 (len / 256))) by lia.
  match goal with
  | |- context [for_upto_opt _ _ (mkWav _ _ _ _ ?dat, ?lg)] =>
      destruct (writeBlocks_wav pck rom 1 44100 8
                  (Z.to_nat (u8 (len / 256))) ltac:(fold len; lia) dat lg)
        as [lg' E]
  end.
  rewrite E. cbn [bind].
  rewrite writeByteDuration_wav.
  exists lg'.
  unfold pck. rewrite bytesPerSecond_44100.
  rewrite !run_count by reflexivity.
  rewrite Z2Nat.id by lia.
  unfold tape, header, startSamples. fold len. fold pck.
  rewrite !tones_of_bytes_one.
  rewrite <- !app_assoc. rewrite <- !tones_of_bytes_app.
  cbn [app]. reflexivity.
Qed.

(** A ROM of fewer than 4 bytes has no address: [Convert] panics. *)
Lemma Convert_wav_short {L : Type} `{Writer L} (rom : list Z) (logger : L) :
  Z.of_nat (List.length rom) < 4 ->
  Convert_wav Sin rom logger = None.
Proof.
  intros Hlen. unfold Convert_wav. cbv zeta. unfold index at 1.
  destruct (Z.ltb_spec (Z.of_nat (List.length rom) - 4) 0); [|lia].
  reflexivity.
Qed.

(** The same, for a ROM of the supported size: 16 blocks, the address at
    offsets 4092 and 4093. *)
Lemma Convert_wav_4096 {L : Type} `{Writer L} (rom : list Z) (logger : L) :
  Z.of_nat (List.length rom) = 4096 ->
  exists logger',
    Convert_wav Sin rom logger
    = Some (mkWav 1 1 44100 8
              (startSamples Sin
                 ++ tones_of_bytes (newBitPacker Sin 44100)
                      (repeat 0x55 344 ++ [0x54]
                         ++ [byte_at rom 4092; byte_at rom 4093; 0x1d; 16;
                             headerChecksum (byte_at rom 4092)
                               (byte_at rom 4093) 0x1d 16 0 0xc3 0x01;
                             0; 0xc3; 0x01]
                         ++ flat_map (packet rom) (upto 16)
                         ++ repeat 0x55 344)),
            logger').
Proof.
  intros Hlen.
  destruct (Convert_wav_tape rom logger ltac:(lia)) as [lg E].
  exists lg. rewrite E. unfold tape, header. rewrite Hlen. reflexivity.
Qed.

(** The last statement of [Convert] writes the container file of the
    buffered samples. *)
Lemma Convert_Bytes {L : Type} `{Writer L} (rom : list Z) (logger : L)
  (wv : wav) (logger' : L) :
  Convert_wav Sin rom logger = Some (wv, logger') ->
  Convert Sin rom ([] : Buffer) logger = Some (wav_Bytes wv, logger').
Proof. intros E. unfold Convert. rewrite E. reflexivity. Qed.

(* ---------------------------------------------------------------- *)
(** ** The tape protocol *)

(** C7.  [writeByte] handles the eight bits of its byte from the most
    significant to the least significant one and, for each, writes the
    whole table of the one tone (10 samples) when the bit is set and the
    whole table of the zero tone (6 samples) when it is clear; it writes
    nothing else, so that on a one-channel WAV writer the byte adds
    exactly the samples [tones_of_byte]. *)
Theorem writeByte_msb_first (rate : Z) (b : Z) :
  let pck := newBitPacker Sin rate in
  List.length (oneBit pck) = 10%nat
  /\ List.length (zeroBit pck) = 6%nat
  /\ (forall (W : Type) (HW : Writer W) (w : W),
        writeByte pck w b
        = fold_left
            (fun w (bit : bool) =>
               Write w (if bit then oneBit pck else zeroBit pck))
            [Z.testbit b 7; Z.testbit b 6; Z.testbit b 5; Z.testbit b 4;
             Z.testbit b 3; Z.testbit b 2; Z.testbit b 1; Z.testbit b 0]
            w)
  /\ (forall f h d dat,
        writeByte pck (mkWav f 1 h d dat) b
        = mkWav f 1 h d (dat ++ tones_of_byte pck b)).
Proof.
  intros pck.
  destruct (newBitPacker_tables rate) as [Hzero Hone].
  repeat split; try assumption.
  - intros W HW w. apply writeByte_bits.
  - intros f h d dat. apply writeByte_wav.
Qed.

(** C5.  For a ROM of 4096 bytes, the bit packer receives, right after the
    calibration run and the sync byte, the eight header bytes in the order
    addressLow, addressHigh, bankConfig, blockCount, checksum, multiload,
    progressSpeedLow, progressSpeedHigh, with addressLow = rom[len-4],
    addressHigh = rom[len-3], bankConfig = 0x1d, blockCount = len/256 = 16,
    multiload = 0, progressSpeedLow = 0xc3 and progressSpeedHigh = 0x01. *)
Theorem Convert_header_order {L : Type} `{Writer L} (rom : list Z)
  (logger : L) :
  Z.of_nat (List.length rom) = 4096 ->
  exists wv logger',
    Convert_wav Sin rom logger = Some (wv, logger')
    /\ let pck := newBitPacker Sin 44100 in
       let len := Z.of_nat (List.length rom) in
       let addressLow := byte_at rom (len - 4) in
       let addressHigh := byte_at rom (len - 3) in
       let bankConfig := 0x1d in
       let blockCount := len / 256 in
       let multiload := 0 in
       let progressSpeedLow := 0xc3 in
       let progressSpeedHigh := 0x01 in
       let checksum :=
         headerChecksum addressLow addressHigh bankConfig blockCount
           multiload progressSpeedLow progressSpeedHigh in
       index rom (len - 4) = Some addressLow
       /\ index rom (len - 3) = Some addressHigh
       /\ blockCount = 16
       /\ data wv
          = (startSamples Sin
               ++ tones_of_bytes pck (repeat 0x55 344 ++ [0x54])
               ++ tones_of_bytes pck
                    [addressLow; addressHigh; bankConfig; blockCount;
                     checksum; multiload; progressSpeedLow;
                     progressSpeedHigh]
               ++ tones_of_bytes pck
                    (flat_map (packet rom) (upto 16) ++ repeat 0x55 344))%list.
Proof.
  intros Hlen.
  destruct (Convert_wav_4096 rom logger Hlen) as [lg E].
  eexists. exists lg. split; [exact E|]. cbv zeta. rewrite Hlen.
  repeat split.
  - apply index_in_range. lia.
  - apply index_in_range. lia.
  - cbn [data]. rewrite <- !tones_of_bytes_app, <- !app_assoc. reflexivity.
Qed.

(** C4.  For a ROM of 4096 bytes, the checksum byte of the header that is
    written to the tape is 0x55 minus the seven other header bytes, each
    subtraction wrapping at 8 bits, and the eight header bytes add up to
    0x55 modulo 256. *)
Theorem Convert_header_checksum {L : Type} `{Writer L} (rom : list Z)
  (logger : L) :
  Z.of_nat (List.length rom) = 4096 ->
  exists wv logger',
    Convert_wav Sin rom logger = Some (wv, logger')
    /\ let addressLow := byte_at rom 4092 in
       let addressHigh := byte_at rom 4093 in
       let checksum :=
         headerChecksum addressLow addressHigh 0x1d 16 0 0xc3 0x01 in
       data wv
       = (startSamples Sin
            ++ tones_of_bytes (newBitPacker Sin 44100)
                 (repeat 0x55 344 ++ [0x54]
                    ++ [addressLow; addressHigh; 0x1d; 16; checksum;
                        0; 0xc3; 0x01]
                    ++ flat_map (packet rom) (upto 16)
                    ++ repeat 0x55 344))%list
       /\ checksum
          = u8 (u8 (u8 (u8 (u8 (u8 (u8 (0x55 - addressLow) - addressHigh)
                                - 0x1d) - 16) - 0) - 0xc3) - 0x01)
       /\ checksum
          = (0x55 - addressLow - addressHigh - 0x1d - 16 - 0 - 0xc3 - 0x01)
              mod 256
       /\ sum [addressLow; addressHigh; 0x1d; 16; checksum; 0; 0xc3; 0x01]
            mod 256 = 0x55.
Proof.
  intros Hlen.
  destruct (Convert_wav_4096 rom logger Hlen) as [lg E].
  eexists. exists lg. split; [exact E|]. cbv zeta.
  split; [reflexivity|]. split; [reflexivity|]. split.
  - apply headerChecksum_closed.
  - unfold sum. cbn [fold_right].
    rewrite <- (headerChecksum_sum (byte_at rom 4092) (byte_at rom 4093)
                  0x1d 16 0 0xc3 0x01).
    f_equal. lia.
Qed.

(** C3.  For a ROM of 4096 bytes and every block b of its 16 blocks, the
    checksum written to the tape after the page number of the block is
    0x55 - page - (the sum of the 256 bytes of the block) modulo 256, so
    that page, the 256 bytes and the checksum add up to 0x55 modulo 256. *)
Theorem Convert_block_checksum {L : Type} `{Writer L} (rom : list Z)
  (logger : L) :
  Z.of_nat (List.length rom) = 4096 ->
  exists wv logger',
    Convert_wav Sin rom logger = Some (wv, logger')
    /\ (let pck := newBitPacker Sin 44100 in
        data wv
        = (startSamples Sin
             ++ tones_of_bytes pck (repeat 0x55 344 ++ [0x54] ++ header rom)
             ++ tones_of_bytes pck
                  (flat_map
                     (fun b =>
                        blockPage b
                          :: blockChecksum (blockPage b) (romBlock rom b)
                          :: romBlock rom b)
                     (upto 16))
             ++ tones_of_bytes pck (repeat 0x55 344))%list)
    /\ forall b, 0 <= b < 16 ->
         let page := blockPage b in
         let blk := romBlock rom b in
         let checksum := blockChecksum page blk in
         List.length blk = 256%nat
         /\ checksum = (0x55 - page - sum blk) mod 256
         /\ (page + sum blk + checksum) mod 256 = 0x55.
Proof.
  intros Hlen.
  destruct (Convert_wav_tape rom logger ltac:(lia)) as [lg E].
  eexists. exists lg. split; [exact E|]. split.
  - cbv zeta. cbn [data]. unfold tape. rewrite Hlen.
    change (Z.to_nat (u8 (4096 / 256))) with 16%nat.
    rewrite <- !tones_of_bytes_app, <- !app_assoc. reflexivity.
  - intros b Hb. cbv zeta. repeat split.
    + apply romBlock_length; lia.
    + apply blockChecksum_closed.
    + apply blockChecksum_sum.
Qed.

(** C6.  For a ROM of 4096 bytes and every block b of its 16 blocks, the
    page number written to the tape for the block is b*4 + 1, less 0x1f
    (once) when that exceeds 0x1f: 1 for block 0, 29 for block 7 and 2 for
    block 8. *)
Theorem Convert_block_page {L : Type} `{Writer L} (rom : list Z)
  (logger : L) :
  Z.of_nat (List.length rom) = 4096 ->
  exists wv logger',
    Convert_wav Sin rom logger = Some (wv, logger')
    /\ (let pck := newBitPacker Sin 44100 in
        data wv
        = (startSamples Sin
             ++ tones_of_bytes pck (repeat 0x55 344 ++ [0x54] ++ header rom)
             ++ tones_of_bytes pck
                  (flat_map
                     (fun b =>
                        blockPage b
                          :: blockChecksum (blockPage b) (romBlock rom b)
                          :: romBlock rom b)
                     (upto 16))
             ++ tones_of_bytes pck (repeat 0x55 344))%list)
    /\ (forall b, 0 <= b < 16 ->
         blockPage b
         = if 0x1f <? b * 4 + 1 then b * 4 + 1 - 0x1f else b * 4 + 1)
    /\ blockPage 0 = 1 /\ blockPage 7 = 29 /\ blockPage 8 = 2.
Proof.
  intros Hlen.
  destruct (Convert_wav_tape rom logger ltac:(lia)) as [lg E].
  eexists. exists lg. split; [exact E|]. split.
  - cbv zeta. cbn [data]. unfold tape. rewrite Hlen.
    change (Z.to_nat (u8 (4096 / 256))) with 16%nat.
    rewrite <- !tones_of_bytes_app, <- !app_assoc. reflexivity.
  - split; [apply blockPage_closed|]. repeat split.
Qed.

(* ---------------------------------------------------------------- *)
(** ** Runs of a fixed duration *)

Lemma tones_of_repeat_length (pck : bitPacker) (b : Z) (n : nat) :
  List.length (tones_of_bytes pck (repeat b n))
  = (n * List.length (tones_of_byte pck b))%nat.
Proof.
  unfold tones_of_bytes. induction n as [|n IH]; [reflexivity|].
  cbn [repeat flat_map]. rewrite length_app, IH. lia.
Qed.

(** C1.  The byte handed to [writeByteDuration] has no effect: the run
    consists of the byte 0x55 whatever was asked for.  At the trailer of
    [Convert], which asks for half a second of the byte 0x00 at 689 bytes
    per second, the bit packer writes 344 times the tones of 0x55 (22016
    samples), where 344 times the tones of 0x00 would be 16512 samples. *)
Theorem writeByteDuration_trailer :
  let pck := newBitPacker Sin 44100 in
  let w := mkWav 1 1 44100 8 [] in
  (forall (b b' : Z) (duration : float),
      writeByteDuration pck w b duration
      = writeByteDuration pck w b' duration)
  /\ writeByteDuration pck w 0x00 (float64_of_Q endToneSeconds)
     = mkWav 1 1 44100 8 (tones_of_bytes pck (repeat 0x55 344))
  /\ Z.of_nat (List.length (tones_of_bytes pck (repeat 0x55 344))) = 22016
  /\ Z.of_nat (List.length (tones_of_bytes pck (repeat 0x00 344))) = 16512.
Proof.
  intros pck w.
  destruct (newBitPacker_tables 44100) as [Hzero Hone].
  fold pck in Hzero, Hone.
  split; [reflexivity|]. split; [|split].
  - unfold w. rewrite writeByteDuration_wav.
    unfold pck at 2. rewrite bytesPerSecond_44100.
    now rewrite run_count by reflexivity.
  - rewrite tones_of_repeat_length. unfold tones_of_byte.
    change (bits_msb 0x55)
      with [false; true; false; true; false; true; false; true].
    cbn [flat_map tone_of_bit]. rewrite !length_app, Hzero, Hone.
    reflexivity.
  - rewrite tones_of_repeat_length. unfold tones_of_byte.
    change (bits_msb 0x00)
      with [false; false; false; false; false; false; false; false].
    cbn [flat_map tone_of_bit]. rewrite !length_app, Hzero.
    reflexivity.
Qed.

(* ---------------------------------------------------------------- *)
(** ** Tone synthesis *)


(* ---------------------------------------------------------------- *)
(** ** The container file *)

(** C2, amended.  For a ROM of 4096 bytes, the file that [Convert] writes
    is 44 bytes of framing (36 for the RIFF, WAVE and fmt parts, 8 for the
    header of the data sub-chunk) followed by the buffered samples: its
    length is 44 plus the number of samples, with one channel. *)
Theorem Convert_file_length {L : Type} `{Writer L} (rom : list Z)
  (logger : L) :
  Z.of_nat (List.length rom) = 4096 ->
  exists wv out logger',
    Convert_wav Sin rom logger = Some (wv, logger')
    /\ Convert Sin rom ([] : Buffer) logger = Some (out, logger')
    /\ channels wv = 1
    /\ skipn 44 out = data wv
    /\ Z.of_nat (List.length out) = 44 + Z.of_nat (List.length (data wv)).
Proof.
  intros Hlen.
  destruct (Convert_wav_4096 rom logger Hlen) as [lg E].
  eexists. exists (wav_Bytes (mkWav 1 1 44100 8
                     (startSamples Sin
                        ++ tones_of_bytes (newBitPacker Sin 44100)
                             (repeat 0x55 344 ++ [0x54]
                                ++ [byte_at rom 4092; byte_at rom 4093; 0x1d;
                                    16;
                                    headerChecksum (byte_at rom 4092)
                                      (byte_at rom 4093) 0x1d 16 0 0xc3 0x01;
                                    0; 0xc3; 0x01]
                                ++ flat_map (packet rom) (upto 16)
                                ++ repeat 0x55 344)))), lg.
  split; [exact E|]. split; [exact (Convert_Bytes _ _ _ _ E)|].
  split; [reflexivity|]. split.
  - rewrite wav_Bytes_layout. reflexivity.
  - apply wav_Bytes_length.
Qed.

(** C9.  For a ROM of 4096 bytes, reading the "fmt " sub-chunk of the file
    that [Convert] writes gives format code 1 (PCM), 1 channel, a sample
    rate of 44100 and a depth of 8 bits, whatever the ROM holds. *)
Theorem Convert_fmt_roundtrip {L : Type} `{Writer L} (rom : list Z)
  (logger : L) :
  Z.of_nat (List.length rom) = 4096 ->
  exists out logger' c,
    Convert Sin rom ([] : Buffer) logger = Some (out, logger')
    /\ decode_fmt out = Some c
    /\ fmt_format c = 1
    /\ fmt_channels c = 1
    /\ fmt_sampleRate c = 44100
    /\ fmt_depth c = 8.
Proof.
  intros Hlen.
  destruct (Convert_wav_4096 rom logger Hlen) as [lg E].
  apply Convert_Bytes in E.
  eexists. exists lg. eexists. split; [exact E|].
  split; [apply decode_fmt_fixed|]. repeat split.
Qed.

(** C10.  The block-align field of the "fmt " sub-chunk that [wav.Bytes]
    writes is the bitwise AND of the channel count and the bit depth; in
    every file that [Convert] writes (it writes one for every ROM of at
    least 4 bytes, so for every ROM of 4096 bytes; 1 channel, 8 bits) the
    field is 0, not the conventional channels * depth / 8 = 1. *)
Theorem Convert_block_align {L : Type} `{Writer L} (rom : list Z)
  (logger : L) :
  4 <= Z.of_nat (List.length rom) ->
  (forall wv : wav,
      firstn 2 (skipn 32 (wav_Bytes wv))
      = [u8 (Z.land (channels wv) (depth wv));
         u8 (Z.shiftr (Z.land (channels wv) (depth wv)) 8)])
  /\ exists out logger' c,
      Convert Sin rom ([] : Buffer) logger = Some (out, logger')
      /\ decode_fmt out = Some c
      /\ fmt_blockAlign c = Z.land (fmt_channels c) (fmt_depth c)
      /\ fmt_blockAlign c = 0
      /\ fmt_channels c * fmt_depth c / 8 = 1.
Proof.
  intros Hlen. split; [exact blockAlign_bytes|].
  destruct (Convert_wav_tape rom logger Hlen) as [lg E].
  apply Convert_Bytes in E.
  eexists. exists lg. eexists. split; [exact E|].
  split; [apply decode_fmt_fixed|]. repeat split.
Qed.

End Properties.

(* ------------------------------------------------------------------ *)
(** ** The statements at concrete inputs

    The sine is Go's, the ROM is [example_rom], the log starts empty. *)

Lemma Convert_header_order_witness :
  Z.of_nat (List.length example_rom) = 4096
  /\ exists wv logger',
      Convert_wav math_Sin example_rom ([] : Buffer) = Some (wv, logger')
      /\ let pck := newBitPacker math_Sin 44100 in
         let len := Z.of_nat (List.length example_rom) in
         let addressLow := byte_at example_rom (len - 4) in
         let addressHigh := byte_at example_rom (len - 3) in
         let bankConfig := 0x1d in
         let blockCount := len / 256 in
         let multiload := 0 in
         let progressSpeedLow := 0xc3 in
         let progressSpeedHigh := 0x01 in
         let checksum :=
           headerChecksum addressLow addressHigh bankConfig blockCount
             multiload progressSpeedLow progressSpeedHigh in
         index example_rom (len - 4) = Some addressLow
         /\ index example_rom (len - 3) = Some addressHigh
         /\ blockCount = 16
         /\ data wv
            = (startSamples math_Sin
                 ++ tones_of_bytes pck (repeat 0x55 344 ++ [0x54])
                 ++ tones_of_bytes pck
                      [addressLow; addressHigh; bankConfig; blockCount;
                       checksum; multiload; progressSpeedLow;
                       progressSpeedHigh]
                 ++ tones_of_bytes pck
                      (flat_map (packet example_rom) (upto 16)
                         ++ repeat 0x55 344))%list.
Proof.
  split; [reflexivity|].
  apply (Convert_header_order math_Sin example_rom ([] : Buffer)).
  reflexivity.
Defined.

Lemma Convert_header_checksum_witness :
  Z.of_nat (List.length example_rom) = 4096
  /\ exists wv logger',
      Convert_wav math_Sin example_rom ([] : Buffer) = Some (wv, logger')
      /\ let addressLow := byte_at example_rom 4092 in
         let addressHigh := byte_at example_rom 4093 in
         let checksum :=
           headerChecksum addressLow addressHigh 0x1d 16 0 0xc3 0x01 in
         data wv
         = (startSamples math_Sin
              ++ tones_of_bytes (newBitPacker math_Sin 44100)
                   (repeat 0x55 344 ++ [0x54]
                      ++ [addressLow; addressHigh; 0x1d; 16; checksum;
                          0; 0xc3; 0x01]
                      ++ flat_map (packet example_rom) (upto 16)
                      ++ repeat 0x55 344))%list
         /\ checksum
            = u8 (u8 (u8 (u8 (u8 (u8 (u8 (0x55 - addressLow) - addressHigh)
                                  - 0x1d) - 16) - 0) - 0xc3) - 0x01)
         /\ checksum
            = (0x55 - addressLow - addressHigh - 0x1d - 16 - 0 - 0xc3 - 0x01)
                mod 256
         /\ sum [addressLow; addressHigh; 0x1d; 16; checksum; 0; 0xc3; 0x01]
              mod 256 = 0x55.
Proof.
  split; [reflexivity|].
  apply (Convert_header_checksum math_Sin example_rom ([] : Buffer)).
  reflexivity.
Defined.

Lemma Convert_block_checksum_witness :
  Z.of_nat (List.length example_rom) = 4096
  /\ exists wv logger',
      Convert_wav math_Sin example_rom ([] : Buffer) = Some (wv, logger')
      /\ (let pck := newBitPacker math_Sin 44100 in
          data wv
          = (startSamples math_Sin
               ++ tones_of_bytes pck
                    (repeat 0x55 344 ++ [0x54] ++ header example_rom)
               ++ tones_of_bytes pck
                    (flat_map
                       (fun b =>
                          blockPage b
                            :: blockChecksum (blockPage b)
                                 (romBlock example_rom b)
                            :: romBlock example_rom b)
                       (upto 16))
               ++ tones_of_bytes pck (repeat 0x55 344))%list)
      /\ forall b, 0 <= b < 16 ->
           let page := blockPage b in
           let blk := romBlock example_rom b in
           let checksum := blockChecksum page blk in
           List.length blk = 256%nat
           /\ checksum = (0x55 - page - sum blk) mod 256
           /\ (page + sum blk + checksum) mod 256 = 0x55.
Proof.
  split; [reflexivity|].
  apply (Convert_block_checksum math_Sin example_rom ([] : Buffer)).
  reflexivity.
Defined.

Lemma Convert_block_page_witness :
  Z.of_nat (List.length example_rom) = 4096
  /\ exists wv logger',
      Convert_wav math_Sin example_rom ([] : Buffer) = Some (wv, logger')
      /\ (let pck := newBitPacker math_Sin 44100 in
          data wv
          = (startSamples math_Sin
               ++ tones_of_bytes pck
                    (repeat 0x55 344 ++ [0x54] ++ header example_rom)
               ++ tones_of_bytes pck
                    (flat_map
                       (fun b =>
                          blockPage b
                            :: blockChecksum (blockPage b)
                                 (romBlock example_rom b)
                            :: romBlock example_rom b)
                       (upto 16))
               ++ tones_of_bytes pck (repeat 0x55 344))%list)
      /\ (forall b, 0 <= b < 16 ->
           blockPage b
           = if 0x1f <? b * 4 + 1 then b * 4 + 1 - 0x1f else b * 4 + 1)
      /\ blockPage 0 = 1 /\ blockPage 7 = 29 /\ blockPage 8 = 2.
Proof.
  split; [reflexivity|].
  apply (Convert_block_page math_Sin example_rom ([] : Buffer)).
  reflexivity.
Defined.


Lemma Convert_file_length_witness :
  Z.of_nat (List.length example_rom) = 4096
  /\ exists wv out logger',
      Convert_wav math_Sin example_rom ([] : Buffer) = Some (wv, logger')
      /\ Convert math_Sin example_rom ([] : Buffer) ([] : Buffer)
         = Some (out, logger')
      /\ channels wv = 1
      /\ skipn 44 out = data wv
      /\ Z.of_nat (List.length out)
         = 44 + Z.of_nat (List.length (data wv)).
Proof.
  split; [reflexivity|].
  apply (Convert_file_length math_Sin example_rom ([] : Buffer)).
  reflexivity.
Defined.

Lemma Convert_fmt_roundtrip_witness :
  Z.of_nat (List.length example_rom) = 4096
  /\ exists out logger' c,
      Convert math_Sin example_rom ([] : Buffer) ([] : Buffer)
      = Some (out, logger')
      /\ decode_fmt out = Some c
      /\ fmt_format c = 1
      /\ fmt_channels c = 1
      /\ fmt_sampleRate c = 44100
      /\ fmt_depth c = 8.
Proof.
  split; [reflexivity|].
  apply (Convert_fmt_roundtrip math_Sin example_rom ([] : Buffer)).
  reflexivity.
Defined.

Lemma Convert_block_align_witness :
  4 <= Z.of_nat (List.length example_rom)
  /\ (forall wv : wav,
        firstn 2 (skipn 32 (wav_Bytes wv))
        = [u8 (Z.land (channels wv) (depth wv));
           u8 (Z.shiftr (Z.land (channels wv) (depth wv)) 8)])
  /\ exists out logger' c,
      Convert math_Sin example_rom ([] : Buffer) ([] : Buffer)
      = Some (out, logger')
      /\ decode_fmt out = Some c
      /\ fmt_blockAlign c = Z.land (fmt_channels c) (fmt_depth c)
      /\ fmt_blockAlign c = 0
      /\ fmt_channels c * fmt_depth c / 8 = 1.
Proof.
  split; [vm_compute; discriminate|].
  apply (Convert_block_align math_Sin example_rom ([] : Buffer)).
  vm_compute. discriminate.
Defined.


(** C2, as stated, fails.  For [example_rom], [Convert] buffers 247486
    samples and writes a file of 247530 bytes: 44 bytes more than the
    samples, not 44 + 8 = 52 bytes more. *)
Lemma Convert_file_length_counterexample :
  exists wv out logger',
    Convert_wav math_Sin example_rom ([] : Buffer) = Some (wv, logger')
    /\ Convert math_Sin example_rom ([] : Buffer) ([] : Buffer)
       = Some (out, logger')
    /\ channels wv = 1
    /\ Z.of_nat (List.length (data wv)) = 247486
    /\ Z.of_nat (List.length out) = 247530
    /\ Z.of_nat (List.length out)
       <> 44 + 8 + Z.of_nat (List.length (data wv)).
Proof.
  destruct (Convert_wav_4096 math_Sin example_rom ([] : Buffer) eq_refl)
    as [lg E].
  eexists. eexists. exists lg.
  split; [exact E|].
  split; [exact (Convert_Bytes math_Sin _ _ _ _ E)|].
  split; [reflexivity|].
  rewrite wav_Bytes_length. cbn [data].
  assert (Hn : Z.of_nat
                 (List.length
                    (startSamples math_Sin
                       ++ tones_of_bytes (newBitPacker math_Sin 44100)
                            (repeat 0x55 344 ++ [0x54]
                               ++ [byte_at example_rom 4092;
                                   byte_at example_rom 4093; 0x1d; 16;
                                   headerChecksum (byte_at example_rom 4092)
                                     (byte_at example_rom 4093)
                                     0x1d 16 0 0xc3 0x01;
                                   0; 0xc3; 0x01]
                               ++ flat_map (packet example_rom) (upto 16)
                               ++ repeat 0x55 344))%list)
               = 247486) by (vm_compute; reflexivity).
  rewrite Hn. split; [reflexivity|]. split; [reflexivity|]. lia.
Qed.

(* ------------------------------------------------------------------ *)
(** ** Further properties of the WAV writer *)

Lemma for_upto_count (k : nat) (n : Z) :
  for_upto (Z.of_nat k) (fun _ n => n + 1) n = n + Z.of_nat k.
Proof.
  induction k as [|k IH].
  - unfold for_upto. simpl. lia.
  - rewrite for_upto_succ, IH. lia.
Qed.

Lemma wav_Write_n_count (w : wav) (p : list Z) :
  0 <= channels w ->
  wav_Write_n w p = Z.of_nat (List.length p) * channels w.
Proof.
  intros Hc. unfold wav_Write_n.
  assert (G : forall n, fold_left
                (fun n (_ : Z) =>
                   for_upto (channels w) (fun _ n => n + 1) n) p n
              = n + Z.of_nat (List.length p) * channels w).
  { induction p as [|b p IH]; intros n.
    - simpl. lia.
    - cbn [fold_left List.length]. rewrite IH.
      rewrite for_upto_to_nat, for_upto_count. lia. }
  rewrite G. lia.
Qed.

Lemma length_flat_map_repeat (p : list Z) (c : nat) :
  List.length (flat_map (fun b => repeat b c) p) = (List.length p * c)%nat.
Proof.
  induction p as [|b p IH]; [reflexivity|].
  cbn [flat_map List.length]. rewrite length_app, repeat_length, IH. lia.
Qed.

(** X1.  [wav.Write] buffers every byte of its argument once per channel,
    in order, and leaves the configuration alone; the count it returns is
    the number of bytes it buffered, len(p) * channels, which is len(p)
    only with one channel. *)
Theorem wav_Write_channels (w : wav) (p : list Z) :
  0 <= channels w ->
  data (Write w p)
  = (data w ++ flat_map (fun b => repeat b (Z.to_nat (channels w))) p)%list
  /\ (format (Write w p), channels (Write w p), hz (Write w p),
      depth (Write w p))
     = (format w, channels w, hz w, depth w)
  /\ wav_Write_n w p = Z.of_nat (List.length p) * channels w
  /\ Z.of_nat (List.length (data (Write w p)))
     = Z.of_nat (List.length (data w)) + wav_Write_n w p.
Proof.
  intros Hc. unfold Write, wav_Writer.
  split; [apply wav_Write_data|]. split; [reflexivity|].
  split; [now apply wav_Write_n_count|].
  rewrite wav_Write_data, wav_Write_n_count by assumption.
  rewrite length_app, length_flat_map_repeat. nia.
Qed.

Lemma le16_value (v : Z) :
  0 <= v < 2 ^ 16 -> u8 v + 256 * (u8 (Z.shiftr v 8) + 256 * 0) = v.
Proof.
  intros Hv. unfold u8. rewrite Z.shiftr_div_pow2 by lia.
  change (2 ^ 8) with 256. change (2 ^ 16) with 65536 in Hv.
  rewrite (Z.mod_small (v / 256)).
  - pose proof (Z.div_mod v 256 ltac:(lia)). lia.
  - split; [apply Z.div_pos; lia | apply Z.div_lt_upper_bound; lia].
Qed.

Lemma le32_value (v : Z) :
  0 <= v < 2 ^ 32 ->
  u8 v + 256 * (u8 (Z.shiftr v 8) + 256 * (u8 (Z.shiftr v 16)
         + 256 * (u8 (Z.shiftr v 24) + 256 * 0))) = v.
Proof.
  intros Hv. unfold u8. rewrite !Z.shiftr_div_pow2 by lia.
  change (2 ^ 8) with 256. change (2 ^ 16) with (256 * 256).
  change (2 ^ 24) with (256 * 256 * 256).
  change (2 ^ 32) with 4294967296 in Hv.
  rewrite <- !Z.div_div by lia.
  set (q1 := v / 256). set (q2 := q1 / 256). set (q3 := q2 / 256).
  pose proof (Z.div_mod v 256 ltac:(lia)) as E1. fold q1 in E1.
  pose proof (Z.div_mod q1 256 ltac:(lia)) as E2. fold q2 in E2.
  pose proof (Z.div_mod q2 256 ltac:(lia)) as E3. fold q3 in E3.
  pose proof (Z.mod_pos_bound v 256 ltac:(lia)).
  pose proof (Z.mod_pos_bound q1 256 ltac:(lia)).
  pose proof (Z.mod_pos_bound q2 256 ltac:(lia)).
  rewrite (Z.mod_small q3) by lia. lia.
Qed.

Lemma land_u16 (a b : Z) :
  0 <= a < 2 ^ 16 -> 0 <= b -> 0 <= Z.land a b < 2 ^ 16.
Proof.
  intros Ha Hb.
  assert (E : Z.land a b = Z.land a b mod 2 ^ 16).
  { rewrite <- Z.land_ones by lia.
    rewrite <- Z.land_assoc, (Z.land_comm b), Z.land_assoc.
    destruct (Z.eq_dec a 0) as [-> | Hne]; [reflexivity|].
    rewrite (Z.land_ones_low a 16); [reflexivity | lia |].
    apply Z.log2_lt_pow2; lia. }
  rewrite E. apply Z.mod_pos_bound. lia.
Qed.

(** X2.  A reader gets back from the file that [wav.Bytes] builds what
    the writer holds: the four configuration values (the sample rate also
    as byte rate, channels AND depth as block align), the size of the RIFF
    chunk (the length of the file less 8), the size of the data sub-chunk
    and, from offset 44 on, the samples; this as long as every value fits
    its field. *)
Theorem wav_Bytes_roundtrip (wv : wav) :
  0 <= format wv < 2 ^ 16 ->
  0 <= channels wv < 2 ^ 16 ->
  0 <= hz wv < 2 ^ 32 ->
  0 <= depth wv < 2 ^ 16 ->
  36 + Z.of_nat (List.length (data wv)) < 2 ^ 32 ->
  decode_fmt (wav_Bytes wv)
  = Some (mkFmt (format wv) (channels wv) (hz wv) (hz wv)
                (Z.land (channels wv) (depth wv)) (depth wv))
  /\ read_le (wav_Bytes wv) 4 4 = Z.of_nat (List.length (wav_Bytes wv)) - 8
  /\ read_le (wav_Bytes wv) 40 4 = Z.of_nat (List.length (data wv))
  /\ skipn 44 (wav_Bytes wv) = data wv.
Proof.
  intros Hf Hc Hh Hd Hn.
  pose proof (land_u16 (channels wv) (depth wv) Hc ltac:(lia)) as Hl.
  split; [|split; [|split]].
  - rewrite wav_Bytes_layout. unfold decode_fmt, read_le.
    cbn [bytes_of_string list_ascii_of_string map app firstn skipn le32
         le16 fold_right bytes_eqb].
    rewrite (le32_value 16) by lia.
    rewrite !(le32_value (hz wv)) by assumption.
    rewrite (le16_value (format wv) Hf), (le16_value (channels wv) Hc).
    rewrite (le16_value (depth wv) Hd), (le16_value _ Hl).
    reflexivity.
  - rewrite wav_Bytes_length, wav_Bytes_layout. unfold read_le.
    cbn [bytes_of_string list_ascii_of_string map app firstn skipn le32
         fold_right].
    rewrite le32_value by lia. lia.
  - rewrite wav_Bytes_layout. unfold read_le.
    cbn [bytes_of_string list_ascii_of_string map app firstn skipn le32
         le16 fold_right].
    apply le32_value. lia.
  - rewrite wav_Bytes_layout. reflexivity.
Qed.

(* ------------------------------------------------------------------ *)
(** ** What the checksums detect *)

Lemma sum_app (xs ys : list Z) : sum (xs ++ ys) = sum xs + sum ys.
Proof.
  unfold sum. induction xs as [|x xs IH]; simpl; [reflexivity | lia].
Qed.

Lemma sum_Permutation (xs ys : list Z) :
  Permutation xs ys -> sum xs = sum ys.
Proof.
  unfold sum. induction 1; simpl; lia.
Qed.

(** X3.  The checksum of a block tells apart two blocks that differ in
    the value of one byte. *)
Theorem blockChecksum_detects_byte (page : Z) (pre post : list Z) (x y : Z) :
  0 <= x < 256 -> 0 <= y < 256 -> x <> y ->
  blockChecksum page (pre ++ x :: post)
  <> blockChecksum page (pre ++ y :: post).
Proof.
  intros Hx Hy Hxy E. rewrite !blockChecksum_closed in E.
  rewrite !sum_app in E.
  change (sum (x :: post)) with (x + sum post) in E.
  change (sum (y :: post)) with (y + sum post) in E.
  revert E. generalize (sum pre), (sum post). intros a b E.
  apply Hxy. clear Hxy.
  set (u := 85 - page - (a + (x + b))) in E.
  replace (85 - page - (a + (y + b))) with (u + (x - y)) in E
    by (unfold u; lia).
  pose proof (Z.div_mod u 256 ltac:(lia)) as Eu.
  pose proof (Z.div_mod (u + (x - y)) 256 ltac:(lia)) as Ev.
  rewrite <- E in Ev. lia.
Qed.

(** X4.  The checksum of a block does not see the order of its bytes: two
    blocks with the same bytes in another order have the same checksum. *)
Theorem blockChecksum_blind_to_order (page : Z) (blk blk' : list Z) :
  Permutation blk blk' ->
  blockChecksum page blk = blockChecksum page blk'.
Proof.
  intros P. rewrite !blockChecksum_closed.
  now rewrite (sum_Permutation _ _ P).
Qed.

(* ------------------------------------------------------------------ *)
(** ** What the page numbers encode *)

Ltac block_cases b Hb :=
  assert (b = 0 \/ b = 1 \/ b = 2 \/ b = 3 \/ b = 4 \/ b = 5 \/ b = 6
          \/ b = 7 \/ b = 8 \/ b = 9 \/ b = 10 \/ b = 11 \/ b = 12
          \/ b = 13 \/ b = 14 \/ b = 15) as Hb by lia;
  repeat (destruct Hb as [Hb | Hb]; [subst b |]); [.. | subst b].

(** X5.  For the 16 blocks of a 4K ROM the page number holds the bank in
    its two low bits (1 for blocks 0 to 7, 2 for blocks 8 to 15) and the
    page within the bank above them; it lies between 1 and 30, and the
    block is recovered from it, so that no two blocks share a page
    number. *)
Theorem blockPage_encodes (b : Z) :
  0 <= b < 16 ->
  blockPage b = (b mod 8) * 4 + (1 + b / 8)
  /\ 1 <= blockPage b <= 30
  /\ block_of_page (blockPage b) = b.
Proof.
  intros Hb. block_cases b H; vm_compute; intuition discriminate.
Qed.

(* ------------------------------------------------------------------ *)
(** ** The tones can be read back *)

Section Decoding.

Variables z o : list Z.
Hypothesis Hz : (2 <= List.length z)%nat.
Hypothesis Ho : (2 <= List.length o)%nat.
Hypothesis Hzo : nth 1 z 0 <> nth 1 o 0.

Let table (bit : bool) : list Z := if bit then o else z.

Lemma table_nonempty (bit : bool) (rest : list Z) : table bit ++ rest <> [].
Proof.
  unfold table. destruct bit.
  - destruct o; simpl in *; [lia | discriminate].
  - destruct z; simpl in *; [lia | discriminate].
Qed.

Lemma table_second (bit : bool) (rest : list Z) :
  nth 1 (table bit ++ rest) 0 = nth 1 (table bit) 0.
Proof.
  apply app_nth1. unfold table. destruct bit; lia.
Qed.

Lemma bits_of_tones (bits bits' : list bool) :
  flat_map table bits = flat_map table bits' -> bits = bits'.
Proof.
  revert bits'. induction bits as [|a bits IH]; intros [|a' bits'] E.
  - reflexivity.
  - simpl in E. symmetry in E. now apply table_nonempty in E.
  - simpl in E. now apply table_nonempty in E.
  - simpl in E.
    assert (a = a') as <-.
    { pose proof (f_equal (fun l => nth 1 l 0) E) as E1. simpl in E1.
      rewrite !table_second in E1. unfold table in E1.
      destruct a, a'; try reflexivity; congruence. }
    apply app_inv_head in E. f_equal. now apply IH.
Qed.

End Decoding.

Lemma flat_map_flat_map {A B C : Type} (g : B -> list C) (h : A -> list B)
  (l : list A) :
  flat_map (fun a => flat_map g (h a)) l = flat_map g (flat_map h l).
Proof.
  induction l as [|a l IH]; [reflexivity|].
  simpl. now rewrite flat_map_app, IH.
Qed.

Lemma testbit_high (b n : Z) : 0 <= b < 256 -> 8 <= n -> Z.testbit b n = false.
Proof.
  intros Hb Hn. destruct (Z.eq_dec b 0) as [-> | Hne].
  - apply Z.bits_0.
  - apply Z.bits_above_log2; [lia|].
    apply Z.log2_lt_pow2; [lia|].
    assert (2 ^ 8 <= 2 ^ n) by (apply Z.pow_le_mono_r; lia).
    change (2 ^ 8) with 256 in *. lia.
Qed.

Lemma bits_msb_inj (b b' : Z) :
  0 <= b < 256 -> 0 <= b' < 256 -> bits_msb b = bits_msb b' -> b = b'.
Proof.
  intros Hb Hb' E. unfold bits_msb in E.
  injection E as E7 E6 E5 E4 E3 E2 E1 E0.
  apply Z.bits_inj'. intros n Hn.
  destruct (Z_lt_le_dec n 8) as [Hlt | Hge].
  - assert (n = 0 \/ n = 1 \/ n = 2 \/ n = 3 \/ n = 4 \/ n = 5 \/ n = 6
            \/ n = 7) as Hc by lia.
    repeat (destruct Hc as [Hc | Hc]; [subst n; assumption |]).
    subst n. assumption.
  - now rewrite !testbit_high by assumption.
Qed.

Lemma bytes_of_bits (bs bs' : list Z) :
  Forall (fun b => 0 <= b < 256) bs ->
  Forall (fun b => 0 <= b < 256) bs' ->
  flat_map bits_msb bs = flat_map bits_msb bs' -> bs = bs'.
Proof.
  intros Hbs. revert bs'.
  induction Hbs as [|b bs Hb Hbs IH]; intros bs' Hbs' E.
  - destruct bs' as [|b' bs']; [reflexivity | discriminate].
  - destruct Hbs' as [|b' bs' Hb' Hbs']; [discriminate|].
    cbn [flat_map] in E.
    assert (E8 : bits_msb b = bits_msb b'
                 /\ flat_map bits_msb bs = flat_map bits_msb bs').
    { unfold bits_msb at 1 3 in E. cbn [app] in E.
      split; [exact (f_equal (firstn 8) E) | exact (f_equal (skipn 8) E)]. }
    destruct E8 as [Eb Et].
    f_equal; [now apply bits_msb_inj | now apply IH].
Qed.

(** X6.  The tones lose nothing: when the two waveform tables have at
    least two samples each and differ in their second sample, two
    sequences of bytes with the same tones are the same sequence. *)
Theorem tones_of_bytes_inj (pck : bitPacker) (bs bs' : list Z) :
  (2 <= List.length (zeroBit pck))%nat ->
  (2 <= List.length (oneBit pck))%nat ->
  nth 1 (zeroBit pck) 0 <> nth 1 (oneBit pck) 0 ->
  Forall (fun b => 0 <= b < 256) bs ->
  Forall (fun b => 0 <= b < 256) bs' ->
  tones_of_bytes pck bs = tones_of_bytes pck bs' ->
  bs = bs'.
Proof.
  intros Hz Ho Hzo Hbs Hbs' E.
  unfold tones_of_bytes, tones_of_byte in E.
  rewrite !flat_map_flat_map in E.
  apply (bits_of_tones (zeroBit pck) (oneBit pck) Hz Ho Hzo) in E.
  now apply bytes_of_bits.
Qed.

(* ------------------------------------------------------------------ *)
(** ** How many samples *)

Lemma sum_b2z_bounds (bits : list bool) :
  0 <= sum (map Z.b2z bits) <= Z.of_nat (List.length bits).
Proof.
  unfold sum. induction bits as [|[|] bits IH]; simpl List.length;
    cbn [map fold_right Z.b2z]; lia.
Qed.

Lemma ones_bounds (b : Z) : 0 <= ones b <= 8.
Proof. unfold ones. apply (sum_b2z_bounds (bits_msb b)). Qed.

Lemma sum_ones_bounds (bs : list Z) :
  0 <= sum (map ones bs) <= 8 * Z.of_nat (List.length bs).
Proof.
  induction bs as [|b bs IH].
  - simpl. lia.
  - pose proof (ones_bounds b).
    change (sum (map ones (b :: bs))) with (ones b + sum (map ones bs)).
    cbn [List.length]. lia.
Qed.

Lemma tone_bits_length (pck : bitPacker) (bits : list bool) :
  List.length (zeroBit pck) = 6%nat ->
  List.length (oneBit pck) = 10%nat ->
  Z.of_nat (List.length (flat_map (tone_of_bit pck) bits))
  = 6 * Z.of_nat (List.length bits) + 4 * sum (map Z.b2z bits).
Proof.
  intros Hz Ho. induction bits as [|bit bits IH].
  - reflexivity.
  - cbn [flat_map map List.length].
    change (sum (Z.b2z bit :: map Z.b2z bits))
      with (Z.b2z bit + sum (map Z.b2z bits)).
    rewrite length_app. unfold tone_of_bit at 1.
    destruct bit; cbn [Z.b2z]; lia.
Qed.

Lemma tones_of_bytes_length (pck : bitPacker) (bs : list Z) :
  List.length (zeroBit pck) = 6%nat ->
  List.length (oneBit pck) = 10%nat ->
  Z.of_nat (List.length (tones_of_bytes pck bs))
  = 48 * Z.of_nat (List.length bs) + 4 * sum (map ones bs).
Proof.
  intros Hz Ho. unfold tones_of_bytes. induction bs as [|b bs IH].
  - reflexivity.
  - cbn [flat_map map List.length].
    change (sum (ones b :: map ones bs)) with (ones b + sum (map ones bs)).
    rewrite length_app. unfold tones_of_byte at 1.
    pose proof (tone_bits_length pck (bits_msb b) Hz Ho) as E.
    change (List.length (bits_msb b)) with 8%nat in E.
    change (ones b) with (sum (map Z.b2z (bits_msb b))). lia.
Qed.

Lemma length_concat_repeat (t : list Z) (n : nat) :
  List.length (List.concat (repeat t n)) = (n * List.length t)%nat.
Proof.
  induction n as [|n IH]; [reflexivity|].
  cbn [repeat List.concat]. rewrite length_app, IH. lia.
Qed.

Lemma packet_measure (rom : list Z) (b : Z) :
  0 <= b -> b * 256 + 256 <= Z.of_nat (List.length rom) ->
  Z.of_nat (List.length (packet rom b)) = 258
  /\ ones (blockPage b) <= sum (map ones (packet rom b))
     <= ones (blockPage b) + 2056.
Proof.
  intros Hb Hlen. unfold packet. cbn [List.length map].
  pose proof (romBlock_length rom b Hb Hlen) as Hl.
  pose proof (sum_ones_bounds (romBlock rom b)) as Hd.
  pose proof (ones_bounds (blockChecksum (blockPage b) (romBlock rom b)))
    as Hk.
  rewrite Hl in *.
  match goal with
  | |- context [sum (ones ?p :: ones ?c :: map ones ?d)] =>
      change (sum (ones p :: ones c :: map ones d))
        with (ones p + (ones c + sum (map ones d)))
  end.
  lia.
Qed.

Lemma packets_measure (rom : list Z) (n : nat) :
  Z.of_nat n * 256 <= Z.of_nat (List.length rom) ->
  let bs := flat_map (packet rom) (upto n) in
  let pages := sum (map (fun b => ones (blockPage b)) (upto n)) in
  Z.of_nat (List.length bs) = 258 * Z.of_nat n
  /\ pages <= sum (map ones bs) <= pages + 2056 * Z.of_nat n.
Proof.
  intros Hlen. cbv zeta. induction n as [|n IH].
  - simpl. lia.
  - destruct (IH ltac:(lia)) as [IHl IHs].
    destruct (packet_measure rom (Z.of_nat n) ltac:(lia) ltac:(lia))
      as [Hl Hs].
    rewrite upto_succ, !flat_map_app, !map_app, !sum_app, length_app.
    cbn [flat_map map]. rewrite !app_nil_r.
    change (sum [ones (blockPage (Z.of_nat n))])
      with (ones (blockPage (Z.of_nat n)) + 0).
    lia.
Qed.

Section Counting.

Variable Sin : float -> float.

Lemma startSamples_length :
  Z.of_nat (List.length (startSamples Sin)) = 4386.
Proof.
  unfold startSamples. rewrite length_concat_repeat, tone_length.
  reflexivity.
Qed.

(** X7.  For a ROM that [Validate] accepts, the number of samples that
    [Convert] buffers is 235986 plus four per set bit among the 4825 bytes
    of the tape (a zero takes 6 samples, a one 10); whatever the ROM
    holds it lies between 247206 and 378886 (5.6 to 8.6 seconds at 44100
    samples per second), and the file is 44 bytes longer. *)
Theorem Convert_sample_count {L : Type} `{Writer L} (rom : list Z)
  (logger : L) :
  Validate rom = None ->
  exists wv out logger',
    Convert_wav Sin rom logger = Some (wv, logger')
    /\ Convert Sin rom ([] : Buffer) logger = Some (out, logger')
    /\ List.length (tape rom) = 4825%nat
    /\ Z.of_nat (List.length (data wv))
       = 235986 + 4 * sum (map ones (tape rom))
    /\ 247206 <= Z.of_nat (List.length (data wv)) <= 378886
    /\ Z.of_nat (List.length out) = 44 + Z.of_nat (List.length (data wv)).
Proof.
  intros Hv. apply Validate_nil_iff in Hv.
  destruct (Convert_wav_tape Sin rom logger ltac:(lia)) as [lg E].
  destruct (newBitPacker_tables Sin 44100) as [Hzero Hone].
  destruct (packets_measure rom 16 ltac:(lia)) as [Hpl Hps].
  change (sum (map (fun b => ones (blockPage b)) (upto 16))) with 40 in Hps.
  eexists. eexists. exists lg. split; [exact E|].
  split; [exact (Convert_Bytes Sin _ _ _ _ E)|].
  cbn [data]. rewrite wav_Bytes_length. cbn [data].
  assert (Hlen : Z.of_nat (List.length (tape rom)) = 4825).
  { unfold tape. rewrite Hv.
    change (Z.to_nat (u8 (4096 / 256))) with 16%nat.
    rewrite !length_app, !repeat_length. cbn [List.length header].
    lia. }
  assert (Hsum : 2805 <= sum (map ones (tape rom)) <= 35725).
  { unfold tape. rewrite Hv.
    change (Z.to_nat (u8 (4096 / 256))) with 16%nat.
    rewrite !map_app, !sum_app.
    change (sum (map ones (repeat 0x55 344))) with 1376.
    change (sum (map ones [0x54])) with 3.
    unfold header. rewrite Hv.
    change (u8 (4096 / 256)) with 16.
    set (aL := byte_at rom (4096 - 4)).
    set (aH := byte_at rom (4096 - 3)).
    set (ck := headerChecksum aL aH 29 16 0 195 1).
    change (sum (map ones [aL; aH; 29; 16; ck; 0; 195; 1]))
      with (ones aL + (ones aH + (4 + (1 + (ones ck + (0 + (4 + (1 + 0)))))))).
    pose proof (ones_bounds aL). pose proof (ones_bounds aH).
    pose proof (ones_bounds ck). lia. }
  rewrite length_app, Nat2Z.inj_add, startSamples_length.
  rewrite (tones_of_bytes_length _ _ Hzero Hone), Hlen.
  split; [lia|]. split; [lia|]. split; [lia|]. reflexivity.
Qed.

End Counting.

(* ------------------------------------------------------------------ *)
(** ** [Convert] on every ROM *)

Lemma log_all_Buffer (buf : Buffer) (lines : list string) :
  log_all buf lines = (buf ++ flat_map bytes_of_string lines)%list.
Proof.
  unfold log_all. revert buf.
  induction lines as [|s lines IH]; intros buf; simpl.
  - now rewrite app_nil_r.
  - rewrite IH. unfold log, Write, Buffer_Writer. now rewrite app_assoc.
Qed.

Lemma log_all_app {L : Type} `{Writer L} (logger : L) (xs ys : list string) :
  log_all logger (xs ++ ys) = log_all (log_all logger xs) ys.
Proof. unfold log_all. apply fold_left_app. Qed.

Section Whole.

Variable Sin : float -> float.
Context {L : Type} `{Writer L}.

Lemma writeBlock_full (pck : bitPacker) (rom : list Z) (f h d b : Z)
  (dat : Buffer) (logger : L) :
  0 <= b -> b * 256 + 256 <= Z.of_nat (List.length rom) ->
  writeBlock pck rom b (mkWav f 1 h d dat, logger)
  = Some (mkWav f 1 h d (dat ++ tones_of_bytes pck (packet rom b)),
          log logger (block_line rom b)).
Proof.
  intros Hb Hlen. unfold writeBlock.
  rewrite slice_block by assumption. cbn [bind].
  rewrite !writeByte_wav, writeBytes_wav.
  unfold block_line. do 2 f_equal.
  unfold packet, tones_of_bytes. cbn [flat_map].
  now rewrite <- !app_assoc.
Qed.

Lemma writeBlocks_full (pck : bitPacker) (rom : list Z) (f h d : Z)
  (n : nat) :
  Z.of_nat n * 256 <= Z.of_nat (List.length rom) ->
  forall (dat : Buffer) (logger : L),
    for_upto_opt (Z.of_nat n) (writeBlock pck rom) (mkWav f 1 h d dat, logger)
    = Some (mkWav f 1 h d
              (dat ++ tones_of_bytes pck (flat_map (packet rom) (upto n))),
            log_all logger (map (block_line rom) (upto n))).
Proof.
  induction n as [|n IH]; intros Hlen dat logger.
  - simpl. now rewrite app_nil_r.
  - rewrite for_upto_opt_succ, IH by lia. cbn [bind].
    rewrite writeBlock_full by lia.
    rewrite upto_succ, flat_map_app, tones_of_bytes_app, map_app, log_all_app.
    cbn [flat_map map]. rewrite app_nil_r, app_assoc. reflexivity.
Qed.

Lemma for_upto_opt_to_nat {S : Type} (n : Z) (body : Z -> S -> option S)
  (s : S) :
  for_upto_opt n body s = for_upto_opt (Z.of_nat (Z.to_nat n)) body s.
Proof. unfold for_upto_opt. now rewrite Nat2Z.id. Qed.

Lemma Convert_wav_log (rom : list Z) (logger : L) :
  4 <= Z.of_nat (List.length rom) ->
  exists wv,
    Convert_wav Sin rom logger = Some (wv, log_all logger (log_lines rom)).
Proof.
  intros Hlen. unfold Convert_wav. cbv zeta.
  rewrite !index_in_range by lia. cbn [bind].
  change (int_of_Q sampleRate) with 44100.
  rewrite repeat_Write_wav.
  rewrite !writeByteDuration_wav, !writeByte_wav.
  set (len := Z.of_nat (List.length rom)) in *.
  assert (Hq : 0 <= len / 256) by (apply Z.div_pos; lia).
  assert (Hm : len / 256 * 256 <= len).
  { pose proof (Z.mul_div_le len 256 ltac:(lia)). lia. }
  pose proof (u8_le (len / 256) Hq) as Hc.
  rewrite for_upto_opt_to_nat, writeBlocks_full by (fold len; lia).
  cbn [bind]. rewrite writeByteDuration_wav.
  eexists. apply f_equal. apply f_equal.
  unfold log_lines, header_lines. fold len.
  rewrite log_all_app. reflexivity.
Qed.

(** Samples and log of [Convert], for every ROM of at least 4 bytes. *)
Lemma Convert_wav_full (rom : list Z) (logger : L) :
  4 <= Z.of_nat (List.length rom) ->
  Convert_wav Sin rom logger
  = Some (mkWav 1 1 44100 8
            (startSamples Sin
               ++ tones_of_bytes (newBitPacker Sin 44100) (tape rom)),
          log_all logger (log_lines rom)).
Proof.
  intros Hlen.
  destruct (Convert_wav_tape Sin rom logger Hlen) as [lg E].
  destruct (Convert_wav_log rom logger Hlen) as [wv E'].
  rewrite E in E'. injection E' as _ ->. exact E.
Qed.

Lemma Convert_None_iff {W : Type} `{Writer W} (rom : list Z) (w : W)
  (logger : L) :
  Convert Sin rom w logger = None <-> Z.of_nat (List.length rom) < 4.
Proof.
  unfold Convert. split.
  - intros E. destruct (Z_lt_le_dec (Z.of_nat (List.length rom)) 4)
      as [Hlt | Hge]; [assumption|].
    rewrite (Convert_wav_full rom logger Hge) in E. discriminate.
  - intros Hlt. now rewrite (Convert_wav_short Sin rom logger Hlt).
Qed.

(** X8.  [Convert] panics exactly on the ROMs of fewer than 4 bytes, which
    have no address bytes to index; on every other ROM, whatever its
    size, it returns [nil]. *)
Theorem Convert_panics_iff {W : Type} `{Writer W} (rom : list Z) (w : W)
  (logger : L) :
  Convert Sin rom w logger = None <-> Z.of_nat (List.length rom) < 4.
Proof. apply Convert_None_iff. Qed.

(** X9.  On a ROM of any size of at least 4 bytes, [Convert] takes the
    address from the last but three and last but two bytes and writes
    (len / 256) mod 256 packets, one per whole block of 256 bytes from the
    start of the ROM: 697 + 258 * that many bytes go to the bit packer,
    and the bytes after the last whole block are not written. *)
Theorem Convert_any_size (rom : list Z) (logger : L) :
  4 <= Z.of_nat (List.length rom) ->
  let len := Z.of_nat (List.length rom) in
  let blockCount := (len / 256) mod 256 in
  let pck := newBitPacker Sin 44100 in
  exists wv logger',
    Convert_wav Sin rom logger = Some (wv, logger')
    /\ data wv
       = (startSamples Sin
            ++ tones_of_bytes pck
                 (repeat 0x55 344 ++ [0x54]
                    ++ [byte_at rom (len - 4); byte_at rom (len - 3); 0x1d;
                        blockCount;
                        headerChecksum (byte_at rom (len - 4))
                          (byte_at rom (len - 3)) 0x1d blockCount 0 0xc3
                          0x01;
                        0; 0xc3; 0x01]
                    ++ flat_map
                         (fun b =>
                            blockPage b
                              :: blockChecksum (blockPage b)
                                   (firstn 256
                                      (skipn (Z.to_nat (b * 256)) rom))
                              :: firstn 256 (skipn (Z.to_nat (b * 256)) rom))
                         (upto (Z.to_nat blockCount))
                    ++ repeat 0x55 344))%list
    /\ Z.of_nat (List.length (tape rom)) = 697 + 258 * blockCount
    /\ blockCount * 256 <= len.
Proof.
  intros Hlen len blockCount pck.
  assert (Hq : 0 <= len / 256) by (apply Z.div_pos; unfold len; lia).
  assert (Hm : len / 256 * 256 <= len).
  { pose proof (Z.mul_div_le len 256 ltac:(lia)). lia. }
  pose proof (u8_le (len / 256) Hq) as Hc.
  change (u8 (len / 256)) with blockCount in Hc.
  eexists. eexists. split; [apply (Convert_wav_full rom logger Hlen)|].
  split; [reflexivity|]. split; [|lia].
  destruct (packets_measure rom (Z.to_nat blockCount)
              ltac:(fold len; lia)) as [Hpl _].
  unfold tape. fold len. change (u8 (len / 256)) with blockCount.
  rewrite !length_app, !repeat_length. cbn [List.length header].
  lia.
Qed.

(** X10.  For a ROM that [Validate] accepts, [Convert] hands the logger 22
    lines, after whatever the logger held: the address (high byte first),
    "bank config: 1d", "block count: 10", "multiload: 00",
    "load speed: 01c3", the header checksum, then for each of the 16
    blocks its number and checksum. *)
Theorem Convert_log (rom : list Z) (logger : L) :
  Validate rom = None ->
  let lines :=
    ([ tab ++ "address: " ++ hex02 (byte_at rom 4093)
           ++ hex02 (byte_at rom 4092) ++ nl;
       tab ++ "bank config: 1d" ++ nl;
       tab ++ "block count: 10" ++ nl;
       tab ++ "multiload: 00" ++ nl;
       tab ++ "load speed: 01c3" ++ nl;
       tab ++ "checksum: "
           ++ hex02 (headerChecksum (byte_at rom 4092) (byte_at rom 4093)
                       0x1d 16 0 0xc3 0x01) ++ nl ]%string
       ++ map (fun b =>
                 (tab ++ "block " ++ dec b ++ ": checksum "
                      ++ hex02 (blockChecksum (blockPage b) (romBlock rom b))
                      ++ nl)%string)
              (upto 16))%list in
  List.length lines = 22%nat
  /\ (exists wv,
        Convert_wav Sin rom logger
        = Some (wv, fold_left (fun lg s => log lg s) lines logger))
  /\ (forall buf : Buffer,
        fold_left (fun lg s => log lg s) lines buf
        = (buf ++ flat_map bytes_of_string lines)%list).
Proof.
  intros Hv lines. apply Validate_nil_iff in Hv.
  split; [reflexivity|]. split.
  - eexists. rewrite (Convert_wav_full rom logger ltac:(lia)).
    do 2 f_equal. unfold log_lines, header_lines. rewrite Hv.
    reflexivity.
  - intros buf. apply log_all_Buffer.
Qed.

End Whole.

(* ------------------------------------------------------------------ *)
(** ** The command-line program *)

Lemma runs_bind {A B : Type} (m : io A) (f : A -> io B) (tr : list event)
  (o : outcome B) :
  runs (io_bind m f) tr o ->
  (exists tr1 a tr2,
      runs m tr1 (Returned a) /\ runs (f a) tr2 o /\ tr = (tr1 ++ tr2)%list)
  \/ (runs m tr Panicked /\ o = Panicked).
Proof.
  revert tr.
  induction m as [a | | name k IH | name k IH | name k IH | name k IH
                  | name p k IH | name k IH | p k IH | k IH];
    intros tr Hr; cbn [io_bind runs] in *.
  - left. exists [], a, tr. auto.
  - destruct Hr as [-> ->]. right. auto.
  - destruct Hr as (r & tr' & -> & Hr).
    destruct (IH r tr' Hr) as [(tr1 & a & tr2 & H1 & H2 & ->) | [H1 ->]].
    + left. exists (EvStat name r :: tr1), a, tr2. eauto 10.
    + right. eauto 10.
  - destruct Hr as (r & tr' & -> & Hr).
    destruct (IH r tr' Hr) as [(tr1 & a & tr2 & H1 & H2 & ->) | [H1 ->]].
    + left. exists (EvOpen name r :: tr1), a, tr2. eauto 10.
    + right. eauto 10.
  - destruct Hr as (r & tr' & -> & Hr).
    destruct (IH r tr' Hr) as [(tr1 & a & tr2 & H1 & H2 & ->) | [H1 ->]].
    + left. exists (EvReadAll name r :: tr1), a, tr2. eauto 10.
    + right. eauto 10.
  - destruct Hr as (r & tr' & -> & Hr).
    destruct (IH r tr' Hr) as [(tr1 & a & tr2 & H1 & H2 & ->) | [H1 ->]].
    + left. exists (EvCreate name r :: tr1), a, tr2. eauto 10.
    + right. eauto 10.
  - destruct Hr as (r & tr' & -> & Hr).
    destruct (IH r tr' Hr) as [(tr1 & a & tr2 & H1 & H2 & ->) | [H1 ->]].
    + left. exists (EvFileWrite name p r :: tr1), a, tr2. eauto 10.
    + right. eauto 10.
  - destruct Hr as (r & tr' & -> & Hr).
    destruct (IH r tr' Hr) as [(tr1 & a & tr2 & H1 & H2 & ->) | [H1 ->]].
    + left. exists (EvClose name r :: tr1), a, tr2. eauto 10.
    + right. eauto 10.
  - destruct Hr as (r & tr' & -> & Hr).
    destruct (IH r tr' Hr) as [(tr1 & a & tr2 & H1 & H2 & ->) | [H1 ->]].
    + left. exists (EvStdoutWrite p r :: tr1), a, tr2. eauto 10.
    + right. eauto 10.
  - destruct Hr as (tr' & -> & Hr).
    destruct (IH tr' Hr) as [(tr1 & a & tr2 & H1 & H2 & ->) | [H1 ->]].
    + left. exists (EvUsage :: tr1), a, tr2. eauto 10.
    + right. eauto 10.
Qed.

Lemma exec_runs {A : Type} (w : world) (m : io A) :
  runs m (fst (exec w m)) (snd (exec w m)).
Proof.
  induction m as [a | | name k IH | name k IH | name k IH | name k IH
                  | name p k IH | name k IH | p k IH | k IH];
    cbn [exec runs].
  - split; reflexivity.
  - split; reflexivity.
  - specialize (IH (on_stat w name)).
    destruct (exec w (k (on_stat w name))) as [tr o].
    cbn [fst snd] in *. eexists. eexists. split; [reflexivity | exact IH].
  - specialize (IH (on_open w name)).
    destruct (exec w (k (on_open w name))) as [tr o].
    cbn [fst snd] in *. eexists. eexists. split; [reflexivity | exact IH].
  - specialize (IH (on_read w name)).
    destruct (exec w (k (on_read w name))) as [tr o].
    cbn [fst snd] in *. eexists. eexists. split; [reflexivity | exact IH].
  - specialize (IH (on_create w name)).
    destruct (exec w (k (on_create w name))) as [tr o].
    cbn [fst snd] in *. eexists. eexists. split; [reflexivity | exact IH].
  - specialize (IH (on_write w name p)).
    destruct (exec w (k (on_write w name p))) as [tr o].
    cbn [fst snd] in *. eexists. eexists. split; [reflexivity | exact IH].
  - specialize (IH (on_close w name)).
    destruct (exec w (k (on_close w name))) as [tr o].
    cbn [fst snd] in *. eexists. eexists. split; [reflexivity | exact IH].
  - specialize (IH (on_stdout w p)).
    destruct (exec w (k (on_stdout w p))) as [tr o].
    cbn [fst snd] in *. eexists. eexists. split; [reflexivity | exact IH].
  - destruct (exec w k) as [tr o].
    cbn [fst snd] in *. eexists. split; [reflexivity | exact IH].
Qed.

(** Case analysis of a run, call by call. *)
Ltac runs_cases H :=
  repeat
    (unfold context_Write in H; cbn [runs io_bind] in H;
     match type of H with
     | runs (io_bind (if ?b then _ else _) _) _ _ => destruct b eqn:?
     | exists _, _ => destruct H as [? H]
     | _ = _ /\ _ => let E := fresh "E" in destruct H as [E H]; subst
     | runs (match ?x with Some _ => _ | None => _ end) _ _ =>
         destruct x eqn:?
     | runs (let '(_, _) := ?x in _) _ _ => destruct x
     | runs (if ?b then _ else _) _ _ => destruct b eqn:?
     end).

Section ProgramProperties.

Variable Sin : float -> float.
Variables Ext Base Clean : string -> string.
Variable CutSuffix : string -> string -> string * bool.

Ltac process_cases Hr :=
  unfold process in Hr; cbv zeta in Hr; runs_cases Hr.

(** A ROM that [Validate] accepts does not make [Convert] panic. *)
Lemma Convert_validated (rom : list Z) :
  Validate rom = None ->
  Convert Sin rom ([] : Buffer) ([] : Buffer) <> None.
Proof.
  intros Hv E. apply Validate_nil_iff in Hv.
  apply (Convert_None_iff Sin) in E. lia.
Qed.

(** X11.  Without the overwrite switch, [process] first asks for the
    status of the wav file, and unless the answer is an error that says
    the file does not exist, it does nothing more: it opens, creates and
    writes no file and returns "<name> already exists" -- also when the
    status could not be read for another reason. *)
Theorem process_keeps_existing (ctx : context) (romFile : string)
  (tr : list event) (o : outcome (option string)) :
  overwrite ctx = false ->
  runs (process Sin Ext Base CutSuffix ctx romFile) tr o ->
  exists r tr',
    tr = EvStat (wavFile_of Ext CutSuffix romFile) r :: tr'
    /\ (match r with
        | None => True
        | Some e => IsNotExist e = false
        end ->
        tr' = []
        /\ o = Returned
                 (Some (Base (wavFile_of Ext CutSuffix romFile) ++ " already exists")%string)).
Proof.
  intros Ho Hr. process_cases Hr;
    try (rewrite Ho in *; discriminate);
    eexists; eexists; (split; [reflexivity|]); intros Hx;
    try (split; reflexivity);
    match goal with
    | H : match ?x with Some _ => _ | None => _ end = false |- _ =>
        destruct x; [rewrite Hx in H|]; discriminate
    end.
Qed.

(** X12.  [process] creates no file but the wav file, and only after it
    read the whole ROM file without error and found 4096 bytes; whatever
    it writes goes to the wav file it created and is what [Convert] makes
    of that ROM. *)
Theorem process_writes_validated (ctx : context) (romFile : string)
  (tr : list event) (o : outcome (option string)) :
  runs (process Sin Ext Base CutSuffix ctx romFile) tr o ->
  (forall name r, In (EvCreate name r) tr ->
     name = (wavFile_of Ext CutSuffix romFile)
     /\ exists rom,
         In (EvReadAll romFile (rom, None)) tr
         /\ Z.of_nat (List.length rom) = 4096)
  /\ (forall name p r, In (EvFileWrite name p r) tr ->
        name = (wavFile_of Ext CutSuffix romFile)
        /\ In (EvCreate (wavFile_of Ext CutSuffix romFile) None) tr
        /\ exists rom results,
            In (EvReadAll romFile (rom, None)) tr
            /\ Validate rom = None
            /\ Convert Sin rom ([] : Buffer) ([] : Buffer)
               = Some (p, results)).
Proof.
  clear Clean. intros Hr. process_cases Hr; split; intros; cbn [In] in *;
    repeat match goal with
           | H : _ \/ _ |- _ => destruct H
           | H : False |- _ => destruct H
           | H : _ = _ |- _ => discriminate H
           | H : EvCreate _ _ = EvCreate _ _ |- _ =>
               injection H as <- <-
           | H : EvFileWrite _ _ _ = EvFileWrite _ _ _ |- _ =>
               injection H as <- <- <-
           end;
    try (split; [reflexivity|]);
    try (split; [tauto|]);
    repeat eexists; cbn [In]; eauto 12;
    try (apply Validate_nil_iff; assumption).
Qed.

(** X13.  When the ROM that was read has not 4096 bytes, [process] returns
    "<name> skipped", closes the ROM file last, and neither creates nor
    writes any file: an existing wav file is left as it is. *)
Theorem process_skips_invalid (ctx : context) (romFile : string)
  (tr : list event) (o : outcome (option string)) (name : string)
  (rom : list Z) :
  runs (process Sin Ext Base CutSuffix ctx romFile) tr o ->
  In (EvReadAll name (rom, None)) tr ->
  Z.of_nat (List.length rom) <> 4096 ->
  o = Returned (Some (Base romFile ++ " skipped")%string)
  /\ (forall n r, ~ In (EvCreate n r) tr)
  /\ (forall n p r, ~ In (EvFileWrite n p r) tr)
  /\ exists r, last tr EvUsage = EvClose romFile r.
Proof.
  intros Hr Hin Hlen.
  assert (Hv : Validate rom <> None).
  { intros E. apply Validate_nil_iff in E. contradiction. }
  process_cases Hr; cbn [In] in Hin;
    repeat match goal with
           | H : _ \/ _ |- _ => destruct H
           | H : False |- _ => destruct H
           | H : EvReadAll _ _ = EvReadAll _ _ |- _ =>
               injection H as <- <-
           | H : _ = _ |- _ => discriminate H
           end;
    try congruence;
    (split; [reflexivity|]);
    (split; [intros n r' Hn; cbn [In] in Hn;
             repeat (destruct Hn as [Hn | Hn]; [discriminate Hn|]);
             exact Hn |]);
    (split; [intros n p r' Hn; cbn [In] in Hn;
             repeat (destruct Hn as [Hn | Hn]; [discriminate Hn|]);
             exact Hn |]);
    eexists; reflexivity.
Qed.

(** X14.  When [process] returns [nil], it made exactly these calls: the
    status of the wav file (only without the overwrite switch, answered
    "does not exist"), open and read the ROM file, create the wav file,
    one write of the file that [Convert] makes of the ROM, with the
    verbose switch the line "<name> converted" and the log on the standard
    output, then close the wav file and close the ROM file. *)
Theorem process_converted (ctx : context) (romFile : string)
  (tr : list event) :
  runs (process Sin Ext Base CutSuffix ctx romFile) tr (Returned None) ->
  exists pre rom out results rw r1 r2 rcw rcr,
    tr = (pre ++ converted_trace (verbose ctx) romFile (wavFile_of Ext CutSuffix romFile)
                   (Base romFile) rom out results rw r1 r2 rcw rcr)%list
    /\ Validate rom = None
    /\ Convert Sin rom ([] : Buffer) ([] : Buffer) = Some (out, results)
    /\ ((overwrite ctx = true /\ pre = [])
        \/ (overwrite ctx = false
            /\ exists e, IsNotExist e = true
                 /\ pre = [EvStat (wavFile_of Ext CutSuffix romFile) (Some e)])).
Proof.
  intros Hr. process_cases Hr; try discriminate;
    unfold converted_trace;
    repeat match goal with
           | H : verbose _ = _ |- _ => rewrite H
           end;
    match goal with
    | H : negb (overwrite _) = true,
      H' : match ?x with Some _ => _ | None => _ end = false |- _ =>
        destruct x as [e|]; [|discriminate];
        exists [EvStat (wavFile_of Ext CutSuffix romFile) (Some e)]
    | H : negb (overwrite _) = false |- _ => exists []
    end;
    repeat (match goal with |- ex _ => eexists end);
    try (match goal with |- option oserror => exact None end);
    (split; [reflexivity|]);
    (split; [eassumption|]);
    (split; [eassumption|]);
    destruct (overwrite ctx); try discriminate;
    try (left; split; reflexivity);
    right; (split; [reflexivity|]); eexists; (split; [|reflexivity]);
    match goal with
    | H : negb (IsNotExist ?e) = false |- _ =>
        destruct (IsNotExist e); [reflexivity | discriminate]
    end.
Qed.

(** A conversion that goes through, for any answers to the write, the
    writes on the standard output and the closes. *)
Lemma converted_run (ctx : context) (romFile : string)
  (rom : list Z) (rw r1 r2 rcw rcr : option oserror) :
  Validate rom = None ->
  overwrite ctx = true ->
  exists out results,
    Convert Sin rom ([] : Buffer) ([] : Buffer) = Some (out, results)
    /\ runs (process Sin Ext Base CutSuffix ctx romFile)
            (converted_trace (verbose ctx) romFile
               (wavFile_of Ext CutSuffix romFile)
               (Base romFile) rom out results rw r1 r2 rcw rcr)
            (Returned None).
Proof.
  intros Hv Ho.
  destruct (Convert Sin rom ([] : Buffer) ([] : Buffer))
    as [[out results]|] eqn:E;
    [|now apply Convert_validated in E].
  exists out, results. split; [reflexivity|].
  unfold process, converted_trace. cbv zeta. rewrite Ho.
  cbn [negb runs].
  exists None. eexists. split; [reflexivity|].
  cbn [runs]. exists (rom, None). eexists. split; [reflexivity|].
  rewrite Hv. cbn [runs]. exists None. eexists. split; [reflexivity|].
  rewrite E. cbn [runs]. exists rw. eexists. split; [reflexivity|].
  unfold context_Write. destruct (verbose ctx); cbn [io_bind runs app].
  - exists r1. eexists. split; [reflexivity|].
    exists r2. eexists. split; [reflexivity|].
    exists rcw. eexists. split; [reflexivity|].
    exists rcr. eexists. split; [reflexivity|]. split; reflexivity.
  - exists rcw. eexists. split; [reflexivity|].
    exists rcr. eexists. split; [reflexivity|]. split; reflexivity.
Qed.

(** X15.  The answers to the write, to the writes on the standard output
    and to the two closes have no effect: for a ROM of 4096 bytes,
    [process] goes through the calls of a conversion and returns [nil]
    whatever these answers are, errors included. *)
Theorem process_ignores_write_errors (ctx : context) (romFile : string)
  (rom : list Z) (rw r1 r2 rcw rcr : option oserror) :
  Validate rom = None ->
  overwrite ctx = true ->
  exists out results,
    Convert Sin rom ([] : Buffer) ([] : Buffer) = Some (out, results)
    /\ runs (process Sin Ext Base CutSuffix ctx romFile)
            (converted_trace (verbose ctx) romFile
               (wavFile_of Ext CutSuffix romFile)
               (Base romFile) rom out results rw r1 r2 rcw rcr)
            (Returned None).
Proof. apply converted_run. Qed.

Lemma process_outcome (ctx : context) (romFile : string) (tr : list event)
  (o : outcome (option string)) :
  runs (process Sin Ext Base CutSuffix ctx romFile) tr o ->
  (exists e, o = Returned e)
  /\ (verbose ctx = false -> Forall (fun e => is_stdout e = false) tr).
Proof.
  intros Hr. process_cases Hr;
    try match goal with
        | Hv : Validate ?rom = None, Hc : Convert _ ?rom _ _ = None |- _ =>
            now apply Convert_validated in Hc
        end;
    (split; [eexists; reflexivity|]); intros Hq;
    try (rewrite Hq in *; discriminate);
    repeat constructor.
Qed.


Lemma opened_app (tr1 tr2 : list event) :
  opened (tr1 ++ tr2) = (opened tr1 ++ opened tr2)%list.
Proof.
  induction tr1 as [|e tr1 IH]; [reflexivity|].
  destruct e; cbn [app opened]; rewrite IH; reflexivity.
Qed.

Lemma process_balance (ctx : context) (romFile : string) (tr : list event)
  (o : outcome (option string)) :
  runs (process Sin Ext Base CutSuffix ctx romFile) tr o ->
  List.length (filter releases tr) = List.length (filter acquires tr)
  /\ (overwrite ctx = true -> opened tr = [romFile]).
Proof.
  intros Hr. process_cases Hr;
    try match goal with
        | Hv : Validate ?rom = None, Hc : Convert _ ?rom _ _ = None |- _ =>
            now apply Convert_validated in Hc
        end;
    (split; [reflexivity|]); intros Ho;
    try (rewrite Ho in *; discriminate); reflexivity.
Qed.

Lemma context_Write_runs (ctx : context) (p : list Z) (tr : list event)
  (o : outcome Z) :
  runs (context_Write ctx p) tr o ->
  (exists n, o = Returned n)
  /\ filter releases tr = [] /\ filter acquires tr = [] /\ opened tr = [].
Proof.
  unfold context_Write. destruct (verbose ctx); cbn [runs].
  - intros (r & tr' & -> & -> & ->). split; [eexists; reflexivity|].
    repeat split; reflexivity.
  - intros [-> ->]. split; [eexists; reflexivity|].
    repeat split; reflexivity.
Qed.

Lemma main_loop_balance (ctx : context) (args : list string)
  (tr : list event) (o : outcome unit) :
  runs (main_loop Sin Ext Base Clean CutSuffix ctx args) tr o ->
  List.length (filter releases tr) = List.length (filter acquires tr)
  /\ (overwrite ctx = true -> opened tr = map Clean args).
Proof.
  revert tr. induction args as [|f args IH]; intros tr Hr.
  - destruct Hr as [-> ->]. split; [reflexivity | intros _; reflexivity].
  - cbn [main_loop] in Hr. cbv zeta in Hr.
    apply runs_bind in Hr.
    destruct Hr as [(tr1 & e & tr2 & H1 & H2 & ->) | [H1 ->]].
    + apply process_balance in H1. destruct H1 as [Hb1 Ho1].
      assert (Hrest : exists tr3 tr4,
                 tr2 = (tr3 ++ tr4)%list
                 /\ filter releases tr3 = [] /\ filter acquires tr3 = []
                 /\ opened tr3 = []
                 /\ runs (main_loop Sin Ext Base Clean CutSuffix ctx args)
                         tr4 o).
      { destruct e as [e|].
        - apply runs_bind in H2.
          destruct H2 as [(tr3 & n & tr4 & H3 & H4 & ->) | [H3 ->]].
          + apply context_Write_runs in H3.
            destruct H3 as (_ & Hr3 & Ha3 & Ho3).
            exists tr3, tr4. auto.
          + apply context_Write_runs in H3.
            destruct H3 as ([n Hn] & _). discriminate.
        - exists [], tr2. auto. }
      destruct Hrest as (tr3 & tr4 & -> & Hr3 & Ha3 & Ho3 & H4).
      apply IH in H4. destruct H4 as [Hb4 Ho4].
      rewrite !filter_app, !opened_app, Hr3, Ha3, Ho3.
      cbn [app]. rewrite !length_app. split; [lia|].
      intros Ho. rewrite (Ho1 Ho), (Ho4 Ho). reflexivity.
    + apply process_outcome in H1. destruct H1 as [[e H1] _]. discriminate.
Qed.

(** X17.  [main] leaves no file open: in every run, whatever the
    environment answers, there are as many calls of [Close] as calls of
    [os.Open] and [os.Create] that succeeded. *)
Theorem main_closes_files (ctx : context) (args : list string)
  (tr : list event) (o : outcome unit) :
  runs (main Sin Ext Base Clean CutSuffix ctx args) tr o ->
  List.length (filter releases tr) = List.length (filter acquires tr).
Proof.
  unfold main.
  destruct (Z.of_nat (List.length args) =? 0).
  - intros (tr' & -> & -> & ->). reflexivity.
  - intros Hr. apply main_loop_balance in Hr. apply Hr.
Qed.

(** X18.  With the overwrite switch, [main] opens every file named on
    the command line, once and in the order of the command line, under
    its cleaned name: a file that fails does not stop the ones after
    it. *)
Theorem main_opens_each (ctx : context) (args : list string)
  (tr : list event) (o : outcome unit) :
  overwrite ctx = true ->
  runs (main Sin Ext Base Clean CutSuffix ctx args) tr o ->
  opened tr = map Clean args.
Proof.
  intros Ho. unfold main.
  destruct (Z.of_nat (List.length args) =? 0) eqn:E.
  - intros (tr' & -> & -> & ->).
    destruct args; [reflexivity | discriminate E].
  - intros Hr. apply main_loop_balance in Hr. apply Hr. exact Ho.
Qed.


End ProgramProperties.

(* ------------------------------------------------------------------ *)
(** ** The program at work *)

(** A ROM file of three bytes, with both switches off: the status of the
    wav file, then the ROM file is opened, read and closed; no wav file is
    created. *)
Example process_short_rom :
  exec (world_with_rom [1; 2; 3])
       (process math_Sin plain_Ext plain_Base plain_CutSuffix
                (mkContext false false) "game.bin")
  = ([EvStat "game.wav"
        (Some (mkOsError "no such file or directory" true));
      EvOpen "game.bin" None;
      EvReadAll "game.bin" ([1; 2; 3], None);
      EvClose "game.bin" None],
     Returned (Some "game.bin skipped"%string)).
Proof. reflexivity. Qed.

(** The same with the verbose switch, from [main]: the message of the
    failure reaches the standard output. *)
Example main_short_rom_verbose :
  exec (world_with_rom [1; 2; 3])
       (main math_Sin plain_Ext plain_Base plain_Clean plain_CutSuffix
             (mkContext true true) ["game.bin"%string])
  = ([EvOpen "game.bin" None;
      EvReadAll "game.bin" ([1; 2; 3], None);
      EvClose "game.bin" None;
      EvStdoutWrite (bytes_of_string ("game.bin skipped" ++ nl)) None],
     Returned tt).
Proof. reflexivity. Qed.

Example main_no_arguments :
  exec (world_with_rom [])
       (main math_Sin plain_Ext plain_Base plain_Clean plain_CutSuffix
             (mkContext true true) [])
  = ([EvUsage], Returned tt).
Proof. reflexivity. Qed.

(* ------------------------------------------------------------------ *)
(** ** The further statements at concrete inputs *)

Lemma wav_Write_channels_witness :
  let w := mkWav 1 2 44100 8 [7] in
  let p := [1; 2; 3] in
  0 <= channels w
  /\ (data (Write w p)
      = (data w ++ flat_map (fun b => repeat b (Z.to_nat (channels w))) p)%list
      /\ (format (Write w p), channels (Write w p), hz (Write w p),
          depth (Write w p))
         = (format w, channels w, hz w, depth w)
      /\ wav_Write_n w p = Z.of_nat (List.length p) * channels w
      /\ Z.of_nat (List.length (data (Write w p)))
         = Z.of_nat (List.length (data w)) + wav_Write_n w p).
Proof.
  split; [vm_compute; discriminate|].
  apply (wav_Write_channels (mkWav 1 2 44100 8 [7]) [1; 2; 3]).
  vm_compute. discriminate.
Defined.

Lemma wav_Bytes_roundtrip_witness :
  let wv := mkWav 1 2 22050 16 [1; 2; 3; 4] in
  (0 <= format wv < 2 ^ 16
   /\ 0 <= channels wv < 2 ^ 16
   /\ 0 <= hz wv < 2 ^ 32
   /\ 0 <= depth wv < 2 ^ 16
   /\ 36 + Z.of_nat (List.length (data wv)) < 2 ^ 32)
  /\ (decode_fmt (wav_Bytes wv)
      = Some (mkFmt (format wv) (channels wv) (hz wv) (hz wv)
                    (Z.land (channels wv) (depth wv)) (depth wv))
      /\ read_le (wav_Bytes wv) 4 4
         = Z.of_nat (List.length (wav_Bytes wv)) - 8
      /\ read_le (wav_Bytes wv) 40 4 = Z.of_nat (List.length (data wv))
      /\ skipn 44 (wav_Bytes wv) = data wv).
Proof.
  split; [cbn; lia|].
  apply (wav_Bytes_roundtrip (mkWav 1 2 22050 16 [1; 2; 3; 4])); cbn; lia.
Defined.

Lemma blockChecksum_detects_byte_witness :
  (0 <= 0x10 < 256 /\ 0 <= 0x90 < 256 /\ 0x10 <> 0x90)
  /\ blockChecksum 1 ([1; 2] ++ 0x10 :: [3])
     <> blockChecksum 1 ([1; 2] ++ 0x90 :: [3]).
Proof.
  split; [lia|].
  apply (blockChecksum_detects_byte 1 [1; 2] [3] 0x10 0x90); lia.
Defined.

Lemma blockChecksum_blind_to_order_witness :
  Permutation [1; 2; 3] [2; 1; 3]
  /\ blockChecksum 1 [1; 2; 3] = blockChecksum 1 [2; 1; 3].
Proof.
  split; [apply perm_swap|].
  apply (blockChecksum_blind_to_order 1 [1; 2; 3] [2; 1; 3]).
  apply perm_swap.
Defined.

Lemma blockPage_encodes_witness :
  0 <= 9 < 16
  /\ (blockPage 9 = (9 mod 8) * 4 + (1 + 9 / 8)
      /\ 1 <= blockPage 9 <= 30
      /\ block_of_page (blockPage 9) = 9).
Proof.
  split; [lia|]. apply (blockPage_encodes 9). lia.
Defined.

Lemma tones_of_bytes_inj_witness :
  let pck := newBitPacker math_Sin 44100 in
  ((2 <= List.length (zeroBit pck))%nat
   /\ (2 <= List.length (oneBit pck))%nat
   /\ nth 1 (zeroBit pck) 0 <> nth 1 (oneBit pck) 0
   /\ Forall (fun b => 0 <= b < 256) [0x54; 0x1d]
   /\ Forall (fun b => 0 <= b < 256) [0x54; 0x1d]
   /\ tones_of_bytes pck [0x54; 0x1d] = tones_of_bytes pck [0x54; 0x1d])
  /\ [0x54; 0x1d] = [0x54; 0x1d].
Proof.
  assert (Hz : (2 <= List.length (zeroBit (newBitPacker math_Sin 44100)))%nat)
    by (vm_compute; lia).
  assert (Ho : (2 <= List.length (oneBit (newBitPacker math_Sin 44100)))%nat)
    by (vm_compute; lia).
  assert (Hd : nth 1 (zeroBit (newBitPacker math_Sin 44100)) 0
               <> nth 1 (oneBit (newBitPacker math_Sin 44100)) 0)
    by (vm_compute; discriminate).
  assert (Hb : Forall (fun b => 0 <= b < 256) [0x54; 0x1d])
    by (repeat constructor; lia).
  split; [repeat split; assumption|].
  apply (tones_of_bytes_inj (newBitPacker math_Sin 44100)
           [0x54; 0x1d] [0x54; 0x1d]); auto.
Defined.

Lemma Convert_sample_count_witness :
  Validate example_rom = None
  /\ exists wv out logger',
      Convert_wav math_Sin example_rom ([] : Buffer) = Some (wv, logger')
      /\ Convert math_Sin example_rom ([] : Buffer) ([] : Buffer)
         = Some (out, logger')
      /\ List.length (tape example_rom) = 4825%nat
      /\ Z.of_nat (List.length (data wv))
         = 235986 + 4 * sum (map ones (tape example_rom))
      /\ 247206 <= Z.of_nat (List.length (data wv)) <= 378886
      /\ Z.of_nat (List.length out)
         = 44 + Z.of_nat (List.length (data wv)).
Proof.
  split; [reflexivity|].
  apply (Convert_sample_count math_Sin example_rom ([] : Buffer)).
  reflexivity.
Defined.

Lemma Convert_any_size_witness :
  let rom := (repeat 0xea 600 ++ [0x00; 0xf0; 0xff; 0xff])%list in
  4 <= Z.of_nat (List.length rom)
  /\ let len := Z.of_nat (List.length rom) in
     let blockCount := (len / 256) mod 256 in
     let pck := newBitPacker math_Sin 44100 in
     exists wv logger',
       Convert_wav math_Sin rom ([] : Buffer) = Some (wv, logger')
       /\ data wv
          = (startSamples math_Sin
               ++ tones_of_bytes pck
                    (repeat 0x55 344 ++ [0x54]
                       ++ [byte_at rom (len - 4); byte_at rom (len - 3);
                           0x1d; blockCount;
                           headerChecksum (byte_at rom (len - 4))
                             (byte_at rom (len - 3)) 0x1d blockCount 0 0xc3
                             0x01;
                           0; 0xc3; 0x01]
                       ++ flat_map
                            (fun b =>
                               blockPage b
                                 :: blockChecksum (blockPage b)
                                      (firstn 256
                                         (skipn (Z.to_nat (b * 256)) rom))
                                 :: firstn 256
                                      (skipn (Z.to_nat (b * 256)) rom))
                            (upto (Z.to_nat blockCount))
                       ++ repeat 0x55 344))%list
       /\ Z.of_nat (List.length (tape rom)) = 697 + 258 * blockCount
       /\ blockCount * 256 <= len.
Proof.
  split; [vm_compute; discriminate|].
  apply (Convert_any_size math_Sin
           (repeat 0xea 600 ++ [0x00; 0xf0; 0xff; 0xff])%list
           ([] : Buffer)).
  vm_compute. discriminate.
Defined.

Lemma Convert_log_witness :
  Validate example_rom = None
  /\ let lines :=
       ([ tab ++ "address: " ++ hex02 (byte_at example_rom 4093)
              ++ hex02 (byte_at example_rom 4092) ++ nl;
          tab ++ "bank config: 1d" ++ nl;
          tab ++ "block count: 10" ++ nl;
          tab ++ "multiload: 00" ++ nl;
          tab ++ "load speed: 01c3" ++ nl;
          tab ++ "checksum: "
              ++ hex02 (headerChecksum (byte_at example_rom 4092)
                          (byte_at example_rom 4093) 0x1d 16 0 0xc3 0x01)
              ++ nl ]%string
          ++ map (fun b =>
                    (tab ++ "block " ++ dec b ++ ": checksum "
                         ++ hex02 (blockChecksum (blockPage b)
                                     (romBlock example_rom b))
                         ++ nl)%string)
                 (upto 16))%list in
     List.length lines = 22%nat
     /\ (exists wv,
           Convert_wav math_Sin example_rom ([] : Buffer)
           = Some (wv, fold_left (fun lg s => log lg s) lines ([] : Buffer)))
     /\ (forall buf : Buffer,
           fold_left (fun lg s => log lg s) lines buf
           = (buf ++ flat_map bytes_of_string lines)%list).
Proof.
  split; [reflexivity|].
  apply (Convert_log math_Sin example_rom ([] : Buffer)).
  reflexivity.
Defined.

(** The runs of [process] that the witnesses below use. *)
Lemma run_existing :
  runs (process math_Sin plain_Ext plain_Base plain_CutSuffix
                (mkContext false false) "game.bin")
       [EvStat "game.wav" None]
       (Returned (Some "game.wav already exists"%string)).
Proof.
  unfold process. cbv zeta. cbn [negb overwrite runs].
  exists None, []. split; [reflexivity|]. split; reflexivity.
Qed.

Lemma run_short :
  runs (process math_Sin plain_Ext plain_Base plain_CutSuffix
                (mkContext false true) "game.bin")
       [EvOpen "game.bin" None; EvReadAll "game.bin" ([1; 2; 3], None);
        EvClose "game.bin" None]
       (Returned (Some "game.bin skipped"%string)).
Proof.
  exact (exec_runs (world_with_rom [1; 2; 3])
           (process math_Sin plain_Ext plain_Base plain_CutSuffix
                    (mkContext false true) "game.bin")).
Qed.

Lemma run_main_quiet :
  runs (main math_Sin plain_Ext plain_Base plain_Clean plain_CutSuffix
             (mkContext false true) ["game.bin"%string])
       [EvOpen "game.bin" None; EvReadAll "game.bin" ([1; 2; 3], None);
        EvClose "game.bin" None]
       (Returned tt).
Proof.
  exact (exec_runs (world_with_rom [1; 2; 3])
           (main math_Sin plain_Ext plain_Base plain_Clean plain_CutSuffix
                 (mkContext false true) ["game.bin"%string])).
Qed.

Lemma process_keeps_existing_witness :
  let ctx := mkContext false false in
  let tr := [EvStat "game.wav" None] in
  let o := Returned (Some "game.wav already exists"%string) in
  (overwrite ctx = false
   /\ runs (process math_Sin plain_Ext plain_Base plain_CutSuffix ctx
                    "game.bin") tr o)
  /\ exists r tr',
      tr = EvStat (wavFile_of plain_Ext plain_CutSuffix "game.bin") r :: tr'
      /\ (match r with
          | None => True
          | Some e => IsNotExist e = false
          end ->
          tr' = []
          /\ o = Returned
                   (Some (plain_Base
                            (wavFile_of plain_Ext plain_CutSuffix "game.bin")
                            ++ " already exists")%string)).
Proof.
  split; [split; [reflexivity | exact run_existing]|].
  apply (process_keeps_existing math_Sin plain_Ext plain_Base
           plain_CutSuffix (mkContext false false) "game.bin");
    [reflexivity | exact run_existing].
Defined.

Lemma process_skips_invalid_witness :
  let ctx := mkContext false true in
  let tr := [EvOpen "game.bin" None; EvReadAll "game.bin" ([1; 2; 3], None);
             EvClose "game.bin" None] in
  let o := Returned (Some "game.bin skipped"%string) in
  (runs (process math_Sin plain_Ext plain_Base plain_CutSuffix ctx "game.bin")
        tr o
   /\ In (EvReadAll "game.bin" ([1; 2; 3], None)) tr
   /\ Z.of_nat (List.length [1; 2; 3]) <> 4096)
  /\ (o = Returned (Some (plain_Base "game.bin" ++ " skipped")%string)
      /\ (forall n r, ~ In (EvCreate n r) tr)
      /\ (forall n p r, ~ In (EvFileWrite n p r) tr)
      /\ exists r, last tr EvUsage = EvClose "game.bin" r).
Proof.
  assert (Hin : In (EvReadAll "game.bin" ([1; 2; 3], None))
                   [EvOpen "game.bin" None;
                    EvReadAll "game.bin" ([1; 2; 3], None);
                    EvClose "game.bin" None])
    by (right; left; reflexivity).
  assert (Hlen : Z.of_nat (List.length [1; 2; 3]) <> 4096)
    by (vm_compute; discriminate).
  split; [split; [exact run_short | split; assumption]|].
  apply (process_skips_invalid math_Sin plain_Ext plain_Base plain_CutSuffix
           (mkContext false true) "game.bin" _ _ "game.bin" [1; 2; 3]
           run_short Hin Hlen).
Defined.

Lemma process_ignores_write_errors_witness :
  let ctx := mkContext true true in
  let full := Some (mkOsError "no space left on device" false) in
  (Validate example_rom = None /\ overwrite ctx = true)
  /\ exists out results,
      Convert math_Sin example_rom ([] : Buffer) ([] : Buffer)
      = Some (out, results)
      /\ runs (process math_Sin plain_Ext plain_Base plain_CutSuffix ctx
                       "game.bin")
              (converted_trace (verbose ctx) "game.bin"
                 (wavFile_of plain_Ext plain_CutSuffix "game.bin")
                 (plain_Base "game.bin") example_rom out results
                 full None None full None)
              (Returned None).
Proof.
  split; [split; reflexivity|].
  apply (process_ignores_write_errors math_Sin plain_Ext plain_Base
           plain_CutSuffix (mkContext true true) "game.bin" example_rom);
    reflexivity.
Defined.

Lemma process_converted_witness :
  exists tr,
    runs (process math_Sin plain_Ext plain_Base plain_CutSuffix
                  (mkContext true true) "game.bin") tr (Returned None)
    /\ exists pre rom out results rw r1 r2 rcw rcr,
        tr = (pre ++ converted_trace true "game.bin"
                       (wavFile_of plain_Ext plain_CutSuffix "game.bin")
                       (plain_Base "game.bin") rom out results
                       rw r1 r2 rcw rcr)%list
        /\ Validate rom = None
        /\ Convert math_Sin rom ([] : Buffer) ([] : Buffer)
           = Some (out, results)
        /\ ((true = true /\ pre = [])
            \/ (true = false
                /\ exists e, IsNotExist e = true
                     /\ pre = [EvStat
                                 (wavFile_of plain_Ext plain_CutSuffix
                                    "game.bin") (Some e)])).
Proof.
  destruct (converted_run math_Sin plain_Ext plain_Base plain_CutSuffix
              (mkContext true true) "game.bin" example_rom
              None None None None None eq_refl eq_refl)
    as (out & results & _ & Hr).
  eexists. split; [exact Hr|].
  exact (process_converted math_Sin plain_Ext plain_Base plain_CutSuffix
           (mkContext true true) "game.bin" _ Hr).
Defined.

Lemma process_writes_validated_witness :
  exists tr,
    runs (process math_Sin plain_Ext plain_Base plain_CutSuffix
                  (mkContext true true) "game.bin") tr (Returned None)
    /\ (forall name r, In (EvCreate name r) tr ->
          name = wavFile_of plain_Ext plain_CutSuffix "game.bin"
          /\ exists rom,
              In (EvReadAll "game.bin" (rom, None)) tr
              /\ Z.of_nat (List.length rom) = 4096)
    /\ (forall name p r, In (EvFileWrite name p r) tr ->
          name = wavFile_of plain_Ext plain_CutSuffix "game.bin"
          /\ In (EvCreate (wavFile_of plain_Ext plain_CutSuffix "game.bin")
                   None) tr
          /\ exists rom results,
              In (EvReadAll "game.bin" (rom, None)) tr
              /\ Validate rom = None
              /\ Convert math_Sin rom ([] : Buffer) ([] : Buffer)
                 = Some (p, results)).
Proof.
  destruct (converted_run math_Sin plain_Ext plain_Base plain_CutSuffix
              (mkContext true true) "game.bin" example_rom
              None None None None None eq_refl eq_refl)
    as (out & results & _ & Hr).
  eexists. split; [exact Hr|].
  exact (process_writes_validated math_Sin plain_Ext plain_Base
           plain_CutSuffix (mkContext true true) "game.bin" _ _ Hr).
Defined.


Lemma run_main_two :
  runs (main math_Sin plain_Ext plain_Base plain_Clean plain_CutSuffix
             (mkContext true true) ["a.bin"; "b.bin"]%string)
       [EvOpen "a.bin" None; EvReadAll "a.bin" ([1; 2; 3], None);
        EvClose "a.bin" None;
        EvStdoutWrite (bytes_of_string ("a.bin skipped" ++ nl)) None;
        EvOpen "b.bin" None; EvReadAll "b.bin" ([1; 2; 3], None);
        EvClose "b.bin" None;
        EvStdoutWrite (bytes_of_string ("b.bin skipped" ++ nl)) None]
       (Returned tt).
Proof.
  exact (exec_runs (world_with_rom [1; 2; 3])
           (main math_Sin plain_Ext plain_Base plain_Clean plain_CutSuffix
                 (mkContext true true) ["a.bin"; "b.bin"]%string)).
Qed.

Lemma main_closes_files_witness :
  let tr := [EvOpen "game.bin" None; EvReadAll "game.bin" ([1; 2; 3], None);
             EvClose "game.bin" None] in
  runs (main math_Sin plain_Ext plain_Base plain_Clean plain_CutSuffix
             (mkContext false true) ["game.bin"%string]) tr (Returned tt)
  /\ List.length (filter releases tr) = List.length (filter acquires tr).
Proof.
  split; [exact run_main_quiet|].
  exact (main_closes_files math_Sin plain_Ext plain_Base plain_Clean
           plain_CutSuffix (mkContext false true) ["game.bin"%string] _ _
           run_main_quiet).
Defined.

Lemma main_opens_each_witness :
  let ctx := mkContext true true in
  let args := ["a.bin"; "b.bin"]%string in
  let tr := [EvOpen "a.bin" None; EvReadAll "a.bin" ([1; 2; 3], None);
             EvClose "a.bin" None;
             EvStdoutWrite (bytes_of_string ("a.bin skipped" ++ nl)) None;
             EvOpen "b.bin" None; EvReadAll "b.bin" ([1; 2; 3], None);
             EvClose "b.bin" None;
             EvStdoutWrite (bytes_of_string ("b.bin skipped" ++ nl)) None] in
  (overwrite ctx = true
   /\ runs (main math_Sin plain_Ext plain_Base plain_Clean plain_CutSuffix
                 ctx args) tr (Returned tt))
  /\ opened tr = map plain_Clean args.
Proof.
  split; [split; [reflexivity | exact run_main_two]|].
  exact (main_opens_each math_Sin plain_Ext plain_Base plain_Clean
           plain_CutSuffix (mkContext true true) ["a.bin"; "b.bin"]%string
           _ _ eq_refl run_main_two).
Defined.
